(** * serverless-secret-baker: a shallow embedding of [index.js]

    The plugin resolves the secrets declared under [custom.secretBaker] against
    the AWS parameter store, writes them to one JSON file that is added to the
    deployment package, and removes the file after packaging.

    The embedding follows [index.js] function by function.  JavaScript values
    of the (untyped) service configuration are a small inductive type, objects
    are association lists kept in own-property order, and the effects of the
    plugin (the instance fields, the request layer, the log, the file system)
    are threaded through a state-and-error monad. *)

From Stdlib Require Import ZArith Ascii DecimalString.
From stdpp Require Import base strings list gmap.

(** ** Strings

    A JavaScript string is modelled by a Rocq [string]: a sequence of code
    units below 256. *)

Definition dquote : ascii := "034"%char.
Definition backslash : ascii := "092"%char.

Definition str1 (c : ascii) : string := String c EmptyString.

Definition ascii_eqb (a b : ascii) : bool := bool_decide (a = b).

Fixpoint str_mem (c : ascii) (s : string) : bool :=
  match s with
  | EmptyString => false
  | String d s' => ascii_eqb c d || str_mem c s'
  end.

Fixpoint str_forall (p : ascii → bool) (s : string) : bool :=
  match s with
  | EmptyString => true
  | String c s' => p c && str_forall p s'
  end.

Definition str_is_empty (s : string) : bool :=
  match s with EmptyString => true | _ => false end.

Fixpoint str_join (sep : string) (l : list string) : string :=
  match l with
  | [] => EmptyString
  | [x] => x
  | x :: l' => x +:+ sep +:+ str_join sep l'
  end.

(** ** JavaScript values of the service configuration

    The values a YAML or JSON configuration holds.  [VNum n] is the number
    an integer literal [n] denotes, that is the double nearest to [n];
    numbers with a fraction are not represented.  An object is the list of
    its own properties. *)

Set Warnings "-register-all".

Inductive value : Type :=
| VUndefined
| VNull
| VBool (b : bool)
| VNum (n : Z)
| VStr (s : string)
| VArr (items : list value)
| VObj (props : list (string * value)).

(** Errors the plugin can end with.  [ServerlessError] is
    [this.serverless.classes.Error], [JsError] the built-in [Error]; the
    engine's own [ReferenceError] carries the unresolved identifier;
    [TypeError] is the built-in one, thrown by the engine or by Node's
    argument checks; [ArgumentError] is an error of Node's argument checks
    whose class has changed between versions of Node (a [TypeError] or a
    [RangeError]); [FsError] is a failed system call, with its code. *)
Inductive error : Type :=
| ReferenceError (ident : string)
| TypeError
| ServerlessError (message : string)
| ArgumentError
| JsError (message : string)
| FsError (code : string).

Inductive result (A : Type) : Type :=
| Ok (a : A)
| Err (e : error).
Arguments Ok {A} a.
Arguments Err {A} e.

(** ToBoolean. *)
Definition truthy (v : value) : bool :=
  match v with
  | VUndefined | VNull => false
  | VBool b => b
  | VNum n => negb (n =? 0)%Z
  | VStr s => negb (str_is_empty s)
  | VArr _ | VObj _ => true
  end.

Definition typeof (v : value) : string :=
  match v with
  | VUndefined => "undefined"
  | VNull => "object"
  | VBool _ => "boolean"
  | VNum _ => "number"
  | VStr _ => "string"
  | VArr _ | VObj _ => "object"
  end.

Definition Array_isArray (v : value) : bool :=
  match v with VArr _ => true | _ => false end.

Fixpoint assoc {A : Type} (k : string) (o : list (string * A)) : option A :=
  match o with
  | [] => None
  | (k', v) :: o' => if decide (k' = k) then Some v else assoc k o'
  end.

(** Property read [v.k] for the names the plugin reads ([secretBaker],
    [secrets], [filePath], [name], [path]): none of them is inherited from a
    built-in prototype, so the read is the own property or [undefined]; on
    [undefined] and [null] it throws. *)
Definition getProp (v : value) (k : string) : result value :=
  match v with
  | VUndefined | VNull => Err TypeError
  | VObj props => Ok (default VUndefined (assoc k props))
  | _ => Ok VUndefined
  end.

(** ** Numbers as text

    [Number::toString] prints the shortest decimal that reads back as the
    same double, in positional notation up to 21 digits and with an exponent
    beyond. *)

Definition string_of_Z (n : Z) : string := NilZero.string_of_int (Z.to_int n).

(** The double nearest to the integer [n >= 0], a tie going to the even
    significand; [None] beyond the largest double. *)
Definition nearest_double (n : Z) : option Z :=
  if (n <? 2 ^ 53)%Z then Some n
  else
    let e := (Z.log2 n - 52)%Z in
    let q := Z.shiftr n e in
    let r := (n - Z.shiftl q e)%Z in
    let half := Z.shiftl 1 (e - 1) in
    let q' := if (half <? r)%Z || ((r =? half)%Z && Z.odd q) then (q + 1)%Z else q in
    let x := Z.shiftl q' e in
    if (2 ^ 1024 <=? x)%Z then None else Some x.

Definition reads_back (x v : Z) : bool :=
  match nearest_double v with
  | Some y => (y =? x)%Z
  | None => false
  end.

(** The decimal with the fewest significant digits that reads back as the
    double [x]: multiples of [10^m] are tried from the largest [m] down; of
    two candidates the closer one is taken, the even one on a tie. *)
Fixpoint shortest_decimal (x : Z) (m : nat) : Z :=
  let p := (10 ^ Z.of_nat m)%Z in
  let lo := (x / p * p)%Z in
  let hi := (lo + p)%Z in
  let below := (x - lo)%Z in
  let above := (hi - x)%Z in
  let pick :=
    if reads_back x lo && reads_back x hi then
      if (below <? above)%Z then lo
      else if (above <? below)%Z then hi
      else if Z.even (lo / p) then lo else hi
    else if reads_back x lo then lo else hi in
  if reads_back x lo || reads_back x hi then pick
  else match m with
       | O => x
       | S m' => shortest_decimal x m'
       end.

Fixpoint strip_zeros (s : string) : string :=
  match s with
  | EmptyString => EmptyString
  | String c s' =>
      match strip_zeros s' with
      | EmptyString =>
          if bool_decide (c = "0"%char) then EmptyString else String c EmptyString
      | t => String c t
      end
  end.

Definition Number_toString (n : Z) : string :=
  let sign := if (n <? 0)%Z then "-" else EmptyString in
  match nearest_double (Z.abs n) with
  | None => sign +:+ "Infinity"
  | Some x =>
      let v := shortest_decimal x (String.length (string_of_Z x) - 1) in
      let digits := string_of_Z v in
      if String.length digits <=? 21 then sign +:+ digits
      else
        match strip_zeros digits with
        | String d EmptyString =>
            sign +:+ String d ("e+" +:+ string_of_Z (Z.of_nat (String.length digits - 1)))
        | String d rest =>
            sign +:+ String d ("." +:+ rest +:+ "e+"
                               +:+ string_of_Z (Z.of_nat (String.length digits - 1)))
        | EmptyString => sign +:+ digits
        end
  end.

(** ToString, as used by template literals and property keys. *)

Fixpoint js_toString (v : value) : string :=
  match v with
  | VUndefined => "undefined"
  | VNull => "null"
  | VBool true => "true"
  | VBool false => "false"
  | VNum n => Number_toString n
  | VStr s => s
  | VArr items =>
      str_join ","
        ((fix elems (l : list value) : list string :=
            match l with
            | [] => []
            | x :: l' =>
                match x with
                | VUndefined | VNull => EmptyString
                | _ => js_toString x
                end :: elems l'
            end) items)
  | VObj _ => "[object Object]"
  end.

(** ** Objects as ordered property lists

    An object is the list of its own enumerable properties in the order
    [Object.entries], [JSON.stringify] and object spread visit them: array
    index keys first, in increasing order, then the other keys in the order
    they were created. *)

Definition obj (A : Type) : Type := list (string * A).

(** [k] is an array index: the canonical decimal form of a number below
    [2^32 - 1]. *)
Definition array_index (k : string) : option N :=
  match NilZero.uint_of_string k with
  | Some u =>
      let n := N.of_uint u in
      if bool_decide (NilZero.string_of_uint (N.to_uint n) = k)
         && (n <? 4294967295)%N
      then Some n else None
  | None => None
  end.

Fixpoint obj_replace {A : Type} (k : string) (v : A) (o : obj A) : obj A :=
  match o with
  | [] => []
  | (k', v') :: o' =>
      if decide (k' = k) then (k, v) :: o' else (k', v') :: obj_replace k v o'
  end.

Fixpoint obj_insert_index {A : Type} (n : N) (k : string) (v : A) (o : obj A)
  : obj A :=
  match o with
  | [] => [(k, v)]
  | (k', v') :: o' =>
      match array_index k' with
      | Some m =>
          if (n <? m)%N then (k, v) :: o
          else (k', v') :: obj_insert_index n k v o'
      | None => (k, v) :: o
      end
  end.

(** The assignment [o[k] = v] where [v] is an object, on an object that
    inherits from [Object.prototype].  The key [__proto__] reaches the
    inherited setter, which replaces the prototype and creates no own
    property; an existing key keeps its place; a new key is created. *)
Definition obj_set {A : Type} (k : string) (v : A) (o : obj A) : obj A :=
  if decide (k = "__proto__") then o
  else match assoc k o with
       | Some _ => obj_replace k v o
       | None =>
           match array_index k with
           | Some n => obj_insert_index n k v o
           | None => o ++ [(k, v)]
           end
       end.

(** Object spread [{...a, ...b}] into a fresh literal: own properties are
    defined, not assigned, so no setter is involved. *)
Definition obj_define {A : Type} (k : string) (v : A) (o : obj A) : obj A :=
  match assoc k o with
  | Some _ => obj_replace k v o
  | None =>
      match array_index k with
      | Some n => obj_insert_index n k v o
      | None => o ++ [(k, v)]
      end
  end.

Definition obj_spread {A : Type} (a b : obj A) : obj A :=
  fold_left (fun o kv => obj_define kv.1 kv.2 o) (a ++ b) [].

(** ** [JSON.stringify] on the secrets object *)

Definition hex_digit (n : nat) : ascii :=
  ascii_of_nat (if n <? 10 then 48 + n else 87 + n).

Definition json_escape (c : ascii) : string :=
  let n := nat_of_ascii c in
  if ascii_eqb c dquote then String backslash (str1 dquote)
  else if ascii_eqb c backslash then String backslash (str1 backslash)
  else if n =? 8 then String backslash "b"
  else if n =? 9 then String backslash "t"
  else if n =? 10 then String backslash "n"
  else if n =? 12 then String backslash "f"
  else if n =? 13 then String backslash "r"
  else if n <? 32 then
    String backslash ("u00" +:+ String (hex_digit (n / 16)) (str1 (hex_digit (n mod 16))))
  else str1 c.

Fixpoint json_escape_all (s : string) : string :=
  match s with
  | EmptyString => EmptyString
  | String c s' => json_escape c +:+ json_escape_all s'
  end.

Definition json_quote (s : string) : string :=
  String dquote (json_escape_all s +:+ str1 dquote).

(** The value stored per secret at lines 98-101. *)
Record resolved : Type := Resolved { ciphertext : string; arn : string }.

Definition json_of_resolved (r : resolved) : string :=
  "{" +:+ json_quote "ciphertext" +:+ ":" +:+ json_quote (ciphertext r) +:+ ","
      +:+ json_quote "arn" +:+ ":" +:+ json_quote (arn r) +:+ "}".

Definition JSON_stringify (secrets : obj resolved) : string :=
  "{" +:+ str_join ","
            (map (fun kv => json_quote kv.1 +:+ ":" +:+ json_of_resolved kv.2)
                 secrets)
      +:+ "}".

(** ** Regular expressions

    A backtracking matcher for the fragment of JavaScript regular expressions
    that [optionsParamsRegex] is written in: literal characters, greedy [X+]
    over a character class, named groups and concatenation.  The matcher is
    in continuation-passing style; a failing continuation makes a greedy
    repetition give characters back, longest attempt first. *)

Inductive regex : Type :=
| RChar (c : ascii)
| RPlus (class : ascii → bool)
| RGroup (name : string) (r : regex)
| RSeq (r1 r2 : regex).

Definition captures : Type := list (string * string).

Fixpoint str_take (n : nat) (s : string) : string :=
  match n, s with
  | S n', String c s' => String c (str_take n' s')
  | _, _ => EmptyString
  end.

(** The text between the position [s] and the later position [s']. *)
Definition consumed (s s' : string) : string :=
  str_take (String.length s - String.length s') s.

Fixpoint plus_class {A : Type} (p : ascii → bool) (s : string)
    (k : string → option A) : option A :=
  match s with
  | EmptyString => None
  | String c s' =>
      if p c then
        match plus_class p s' k with
        | Some r => Some r
        | None => k s'
        end
      else None
  end.

Fixpoint re_match (r : regex) (s : string) (caps : captures)
    (k : string → captures → option captures) : option captures :=
  match r with
  | RChar c =>
      match s with
      | String d s' => if ascii_eqb c d then k s' caps else None
      | EmptyString => None
      end
  | RPlus p => plus_class p s (fun s' => k s' caps)
  | RGroup name r' =>
      re_match r' s caps (fun s' caps' => k s' (caps' ++ [(name, consumed s s')]))
  | RSeq r1 r2 => re_match r1 s caps (fun s1 caps1 => re_match r2 s1 caps1 k)
  end.

(** [String.prototype.match] with a regular expression without flags: the
    groups of the leftmost match, or [None] for [null]. *)
Fixpoint String_match (r : regex) (s : string) : option captures :=
  match re_match r s [] (fun _ caps => Some caps) with
  | Some caps => Some caps
  | None =>
      match s with
      | EmptyString => None
      | String _ s' => String_match r s'
      end
  end.

Definition eq_sign : ascii := "="%char.

(** The class [[^=]]. *)
Definition not_eq_sign (c : ascii) : bool := negb (ascii_eqb c eq_sign).

(** The class [.]: any code unit except a line terminator (line feed and
    carriage return are the line terminators below 256). *)
Definition is_line_terminator (c : ascii) : bool :=
  let n := nat_of_ascii c in (n =? 10) || (n =? 13).
Definition re_dot (c : ascii) : bool := negb (is_line_terminator c).

(** Line 6: [/(?<key>[^=]+)=(?<value>.+)/]. *)
Definition optionsParamsRegex : regex :=
  RSeq (RGroup "key" (RPlus not_eq_sign))
       (RSeq (RChar eq_sign) (RGroup "value" (RPlus re_dot))).

(** ** [split] and [trimEnd] *)

Fixpoint str_split (sep : ascii) (s : string) : list string :=
  match s with
  | EmptyString => [EmptyString]
  | String c s' =>
      if ascii_eqb c sep then EmptyString :: str_split sep s'
      else match str_split sep s' with
           | x :: l => String c x :: l
           | [] => [str1 c]
           end
  end.

(** White space and line terminators below 256: tab, line feed, vertical tab,
    form feed, carriage return, space, no-break space. *)
Definition is_white_space (c : ascii) : bool :=
  let n := nat_of_ascii c in
  (n =? 9) || (n =? 10) || (n =? 11) || (n =? 12) || (n =? 13) || (n =? 32)
  || (n =? 160).

Fixpoint str_trimEnd (s : string) : string :=
  match s with
  | EmptyString => EmptyString
  | String c s' =>
      let t := str_trimEnd s' in
      if str_is_empty t && is_white_space c then EmptyString else String c t
  end.

(** ** The CLI parameter reader (lines 45-57) *)

Record cli_param : Type := CliParam { cli_value : string; cli_type : string }.

(** One iteration of the inner loop, lines 49-53.  A [null] match makes
    [res.groups] throw; both groups take part in every match. *)
Definition readParams_pair (resultParams : obj cli_param) (splitted : string)
  : result (obj cli_param) :=
  match String_match optionsParamsRegex splitted with
  | None => Err TypeError
  | Some groups =>
      match assoc "key" groups, assoc "value" groups with
      | Some key, Some value =>
          Ok (obj_set key (CliParam (str_trimEnd value) "cli") resultParams)
      | _, _ => Err TypeError
      end
  end.

Fixpoint readParams_pairs (resultParams : obj cli_param) (l : list string)
  : result (obj cli_param) :=
  match l with
  | [] => Ok resultParams
  | splitted :: l' =>
      match readParams_pair resultParams splitted with
      | Ok resultParams' => readParams_pairs resultParams' l'
      | Err e => Err e
      end
  end.

Fixpoint readParams_items (resultParams : obj cli_param) (params : list string)
  : result (obj cli_param) :=
  match params with
  | [] => Ok resultParams
  | item :: params' =>
      match readParams_pairs resultParams (str_split "," item) with
      | Ok resultParams' => readParams_items resultParams' params'
      | Err e => Err e
      end
  end.

Definition readParams (params : list string) : result (obj cli_param) :=
  readParams_items [] params.

(** ** The host, the backend and the file system *)

(** The two operations every lifecycle event is bound to. *)
Inductive handler : Type := PackageSecrets | CleanupPackageSecrets.

(** A call [provider.request(service, operation, params, options)]. *)
Record request : Type := Request {
  req_service : string;
  req_operation : string;
  req_Name : value;
  req_WithDecryption : bool;
  req_useCache : bool
}.

Record parameter : Type := SsmParameter { Value : string; ARN : string }.

(** How the promise of the request layer settles: with a response, whose
    [Parameter] may be missing, or with an error. *)
Record aws_error : Type := AwsError { statusCode : value; message : string }.

Inductive outcome : Type :=
| Fulfilled (response_Parameter : option parameter)
| Rejected (err : aws_error).

(** What the plugin reads and never changes: the binding of the free
    identifier [custom] in the scope of the module ([None] when no such
    global exists, as in a plain Node process), the service configuration
    [this.serverless.service.custom], the request layer of the provider, and
    the environment of the file system.  With [useCache] the request layer
    answers equal requests equally, so it is a function of the request.
    [write_refusal p] is the error with which Node or the operating system
    refuses to create or truncate a file at the path [p] for a reason that
    the files and directories do not show (the name is too long or holds a
    null character, rights are missing, the disk is full), and [None] when
    there is none. *)
Record host : Type := Host {
  global_custom : option value;
  service_custom : value;
  provider_request : request → outcome;
  write_refusal : string → option error
}.

(** A flat store of regular files and directories, keyed by path. *)
Inductive node : Type := File (content : string) | Dir.

(** What the plugin changes: its own fields [hooks] and [secretsFile], the
    include list of the package, the log of [serverless.cli.log], the
    requests sent so far, the files, and the descriptors of the process that
    are open for writing, each with the text written to it so far. *)
Record state : Type := State {
  hooks : obj handler;
  secretsFile : value;
  package_include : option (list value);
  cli_log : list string;
  requests : list request;
  files : gmap string node;
  descriptors : gmap Z string
}.

Definition set_hooks (x : obj handler) (st : state) : state :=
  State x (secretsFile st) (package_include st) (cli_log st) (requests st) (files st)
    (descriptors st).
Definition set_secretsFile (x : value) (st : state) : state :=
  State (hooks st) x (package_include st) (cli_log st) (requests st) (files st)
    (descriptors st).
Definition set_package_include (x : option (list value)) (st : state) : state :=
  State (hooks st) (secretsFile st) x (cli_log st) (requests st) (files st)
    (descriptors st).
Definition set_cli_log (x : list string) (st : state) : state :=
  State (hooks st) (secretsFile st) (package_include st) x (requests st) (files st)
    (descriptors st).
Definition set_requests (x : list request) (st : state) : state :=
  State (hooks st) (secretsFile st) (package_include st) (cli_log st) x (files st)
    (descriptors st).
Definition set_files (x : gmap string node) (st : state) : state :=
  State (hooks st) (secretsFile st) (package_include st) (cli_log st) (requests st) x
    (descriptors st).
Definition set_descriptors (x : gmap Z string) (st : state) : state :=
  State (hooks st) (secretsFile st) (package_include st) (cli_log st) (requests st)
    (files st) x.

(** ** The monad of the plugin: state, and an error that keeps the state *)

Definition M (A : Type) : Type := state → result A * state.

Definition ret {A : Type} (a : A) : M A := fun st => (Ok a, st).
Definition throw {A : Type} (e : error) : M A := fun st => (Err e, st).
Definition bind {A B : Type} (m : M A) (k : A → M B) : M B :=
  fun st =>
    match m st with
    | (Ok a, st') => k a st'
    | (Err e, st') => (Err e, st')
    end.
Definition get : M state := fun st => (Ok st, st).
Definition modify (f : state → state) : M unit := fun st => (Ok tt, f st).
Definition liftR {A : Type} (r : result A) : M A := fun st => (r, st).

Definition rbind {A B : Type} (r : result A) (k : A → result B) : result B :=
  match r with
  | Ok a => k a
  | Err e => Err e
  end.

Declare Scope plugin_scope.
Delimit Scope plugin_scope with plugin.
Notation "'do' x <- m ; k" := (bind m (fun x => k))
  (at level 10, x name, m at level 100, k at level 200) : plugin_scope.
Notation "'do_' m ; k" := (bind m (fun _ => k))
  (at level 10, m at level 100, k at level 200) : plugin_scope.
Notation "'try' x <- r ; k" := (rbind r (fun x => k))
  (at level 10, x name, r at level 100, k at level 200) : plugin_scope.
Local Open Scope plugin_scope.

(** ** The file system calls

    The store tells what is at a path, as the path is spelled; paths are
    POSIX paths, relative to a working directory that exists. *)

(** The directory part of a path: the text before its last [/], if it has
    one. *)
Fixpoint dirname (p : string) : option string :=
  match p with
  | EmptyString => None
  | String c p' =>
      match dirname p' with
      | Some d => Some (String c d)
      | None => if ascii_eqb c "/" then Some EmptyString else None
      end
  end.

Fixpoint ends_with_slash (p : string) : bool :=
  match p with
  | EmptyString => false
  | String c EmptyString => ascii_eqb c "/"
  | String _ p' => ends_with_slash p'
  end.

(** Why no file can be created or replaced at the path [p]: the path is
    empty; a directory is there, or the path is spelled as one; its
    directory part is missing or is a file; or the environment refuses. *)
Definition write_error (h : host) (fs : gmap string node) (p : string)
  : option error :=
  if str_is_empty p then Some (FsError "ENOENT")
  else
    match fs !! p with
    | Some Dir => Some (FsError "EISDIR")
    | _ =>
        if ends_with_slash p then Some (FsError "EISDIR")
        else
          match dirname p with
          | Some (String c d) =>
              match fs !! String c d with
              | Some Dir => write_refusal h p
              | Some (File _) => Some (FsError "ENOTDIR")
              | None => Some (FsError "ENOENT")
              end
          | _ => write_refusal h p
          end
    end.

(** [fs.writeFile] on a string creates or replaces the file at that path,
    unless something stands in the way.  A number from [0] to [2^31 - 1] is
    a file descriptor: the text is written to that descriptor when it is open
    for writing, and the call fails with [EBADF] when it is not.  Any other
    number is refused by an argument check, and so is any other value. *)
Definition fs_writeFile (h : host) (path : value) (data : string) : M unit :=
  fun st =>
    match path with
    | VStr p =>
        match write_error h (files st) p with
        | Some e => (Err e, st)
        | None => (Ok tt, set_files (<[p := File data]> (files st)) st)
        end
    | VNum n =>
        if (0 <=? n)%Z && (n <? 2 ^ 31)%Z then
          match descriptors st !! n with
          | Some written =>
              (Ok tt, set_descriptors (<[n := written +:+ data]> (descriptors st)) st)
          | None => (Err (FsError "EBADF"), st)
          end
        else (Err ArgumentError, st)
    | _ => (Err TypeError, st)
    end.

(** [fs.existsSync] answers [false] for anything that is not a path. *)
Definition fs_existsSync (path : value) (st : state) : bool :=
  match path with
  | VStr p => bool_decide (is_Some (files st !! p))
  | _ => false
  end.

Definition fs_unlinkSync (path : value) : M unit :=
  fun st =>
    match path with
    | VStr p =>
        match files st !! p with
        | Some (File _) => (Ok tt, set_files (delete p (files st)) st)
        | Some Dir => (Err (FsError "EISDIR"), st)
        | None => (Err (FsError "ENOENT"), st)
        end
    | _ => (Err TypeError, st)
    end.

Definition cli_log_append (msg : string) : M unit :=
  modify (fun st => set_cli_log (cli_log st ++ [msg]) st).

(** ** The plugin (lines 10-144) *)

Definition defaultSecretsFile : string := "secret-baker-secrets.json".

Definition pkgHooks : obj handler :=
  [ ("before:package:createDeploymentArtifacts", PackageSecrets);
    ("before:deploy:function:packageFunction", PackageSecrets);
    ("before:offline:start", PackageSecrets);
    ("before:invoke:local:invoke", PackageSecrets) ].

Definition cleanupHooks : obj handler :=
  [ ("after:package:createDeploymentArtifacts", CleanupPackageSecrets);
    ("after:deploy:function:packageFunction", CleanupPackageSecrets);
    ("before:offline:start:end", CleanupPackageSecrets);
    ("after:invoke:local:invoke", CleanupPackageSecrets) ].

Record options : Type := Options { param : option (list string) }.

Definition suppression_key : string := "secret-baker-cleanup".

(** Lines 36-37. An entry of [params] is an object, hence truthy; a missing
    one reads as [undefined]. *)
Definition shouldCleanup (params : obj cli_param) : bool :=
  match assoc suppression_key params with
  | Some _ => false
  | None => true
  end.

(** Lines 11-43, on the state the plugin is constructed in. *)
Definition constructor (opts : options) (st : state) : result state :=
  try params <- readParams (default [] (param opts));
  Ok (set_secretsFile (VStr defaultSecretsFile)
        (set_hooks (if shouldCleanup params
                    then obj_spread pkgHooks cleanupHooks
                    else pkgHooks) st)).

(** The identifier [custom] of lines 60 and 61. *)
Definition lookup_custom (h : host) : result value :=
  match global_custom h with
  | Some c => Ok c
  | None => Err (ReferenceError "custom")
  end.

(** [this.serverless.service.custom &&
     this.serverless.service.custom.secretBaker && custom.secretBaker.field] *)
Definition read_secretBaker (h : host) (field : string) : result value :=
  let sc := service_custom h in
  if truthy sc then
    try sb <- getProp sc "secretBaker";
    if truthy sb then
      try c <- lookup_custom h;
      try csb <- getProp c "secretBaker";
      getProp csb field
    else Ok sb
  else Ok sc.

(** [a || b] *)
Definition js_or (a b : value) : value := if truthy a then a else b.

(** Lines 65-74. *)
Definition secret_of_item (item : value) : value :=
  match item with
  | VStr _ => VObj [("name", item); ("path", item)]
  | _ => item
  end.

(** Lines 76-79. *)
Definition secret_of_entry (entry : string * value) : value :=
  VObj [("name", VStr entry.1); ("path", entry.2)].

Definition config_error_message : string :=
  "Secret Baker configuration contained an unexpected value.".

(** Lines 59-84.  [secrets] is truthy, so the [typeof] test of line 75 is
    reached by objects only; booleans, numbers and strings fall through to
    the error. *)
Definition getSecretsConfig (h : host) : M (list value) :=
  do v <- liftR (read_secretBaker h "secrets");
  let secrets := js_or v (VArr []) in
  do f <- liftR (read_secretBaker h "filePath");
  let customSecretsFile := js_or f VUndefined in
  do st <- get;
  do_ modify (set_secretsFile
               (if truthy customSecretsFile then customSecretsFile
                else secretsFile st));
  if Array_isArray secrets then
    match secrets with
    | VArr items => ret (map secret_of_item items)
    | _ => ret []
    end
  else if bool_decide (typeof secrets = "object") then
    match secrets with
    | VObj props => ret (map secret_of_entry props)
    | _ => throw TypeError
    end
  else throw (ServerlessError config_error_message).

(** Lines 111-117: the request of one lookup. *)
Definition ssm_request (name : value) : request :=
  Request "SSM" "getParameter" name false true.

(** [v !== n] for a number [n], negated. *)
Definition strict_equals_number (v : value) (n : Z) : bool :=
  match v with
  | VNum m => (m =? n)%Z
  | _ => false
  end.

(** Lines 119-128: the [then] and the [catch] on the promise of the request. *)
Definition settle (o : outcome) : result (option parameter) :=
  match o with
  | Fulfilled p => Ok p
  | Rejected err =>
      if negb (strict_equals_number (statusCode err) 400)
      then Err (ServerlessError (message err))
      else Ok None
  end.

(** Lines 107-129. *)
Definition getParameterFromSsm (h : host) (name : value) : M (option parameter) :=
  fun st =>
    (settle (provider_request h (ssm_request name)),
     set_requests (requests st ++ [ssm_request name]) st).

(** Lines 91-102: destructuring, lookup, check, assignment. *)
Fixpoint resolve_secrets (h : host) (providerSecrets : list value)
    (secrets : obj resolved) : M (obj resolved) :=
  match providerSecrets with
  | [] => ret secrets
  | item :: rest =>
      do name <- liftR (getProp item "name");
      do path <- liftR (getProp item "path");
      do param <- getParameterFromSsm h path;
      match param with
      | None => throw (JsError ("Unable to load Secret " +:+ js_toString name))
      | Some p =>
          resolve_secrets h rest
            (obj_set (js_toString name) (Resolved (Value p) (ARN p)) secrets)
      end
  end.

(** Lines 86-105. *)
Definition writeSecretToFile (h : host) : M unit :=
  do providerSecrets <- getSecretsConfig h;
  do secrets <- resolve_secrets h providerSecrets [];
  do st <- get;
  fs_writeFile h (secretsFile st) (JSON_stringify secrets).

(** Lines 131-134. *)
Definition cleanupPackageSecrets : M unit :=
  do st <- get;
  do_ cli_log_append ("Cleaning up " +:+ js_toString (secretsFile st));
  do st <- get;
  if fs_existsSync (secretsFile st) st then fs_unlinkSync (secretsFile st)
  else ret tt.

(** Lines 136-143. *)
Definition packageSecrets (h : host) : M unit :=
  do_ cli_log_append "Serverless Secrets beginning packaging process";
  do_ modify (fun st =>
                set_package_include (Some (default [] (package_include st))) st);
  do_ writeSecretToFile h;
  modify (fun st =>
            set_package_include
              (Some (default [] (package_include st) ++ [secretsFile st])) st).

(** The operation a lifecycle event runs. *)
Definition run_handler (h : host) (x : handler) : M unit :=
  match x with
  | PackageSecrets => packageSecrets h
  | CleanupPackageSecrets => cleanupPackageSecrets
  end.

(** What a lookup of [path] settles to, whatever the state. *)
Definition fetch (h : host) (path : value) : result (option parameter) :=
  settle (provider_request h (ssm_request path)).

(** * Vocabulary of the statements *)

(** A computation is framed by a projection of the state when it never
    changes it, whatever its result. *)
Definition preserves {A X : Type} (proj : state → X) (m : M A) : Prop :=
  ∀ st, proj (m st).2 = proj st.

(** The request the loop of lines 91-102 sends for a secret. *)
Definition request_of_item (item : value) : request :=
  ssm_request (match getProp item "path" with Ok path => path | Err _ => VUndefined end).

(** The two descriptors every process has open for writing: the standard
    output and the standard error. *)
Definition std_descriptors : gmap Z string :=
  {[ 1%Z := EmptyString; 2%Z := EmptyString ]}.

Definition empty_state : state := State [] VUndefined None [] [] ∅ std_descriptors.

(** A secret the loop of lines 91-102 gets past. *)
Definition ref_entry (h : host) (item : value) : option (string * resolved) :=
  match getProp item "name", getProp item "path" with
  | Ok name, Ok path =>
      match fetch h path with
      | Ok (Some p) => Some (js_toString name, Resolved (Value p) (ARN p))
      | _ => None
      end
  | _, _ => None
  end.

Definition found (h : host) (item : value) : bool :=
  bool_decide (is_Some (ref_entry h item)).

(** A host whose backend knows two parameters and reports every other one as
    not found. *)
Definition example_backend (r : request) : outcome :=
  match req_Name r with
  | VStr "DB_PASSWORD" =>
      Fulfilled (Some (SsmParameter "s3cr3t" "arn:aws:ssm:...:parameter/DB_PASSWORD"))
  | VStr "A" => Fulfilled (Some (SsmParameter "value-of-A" "arn:A"))
  | _ => Rejected (AwsError (VNum 400) "ParameterNotFound")
  end.

Definition secretBaker_config (secretBaker : list (string * value)) : value :=
  VObj [("secretBaker", VObj secretBaker)].

(** An environment that refuses no write. *)
Definition no_refusal (p : string) : option error := None.

(** A plain process: no global [custom]. *)
Definition plain_host (secretBaker : list (string * value)) : host :=
  Host None (secretBaker_config secretBaker) example_backend no_refusal.

(** A process in which a global [custom] holds the [custom] block of the
    service. *)
Definition host_with_global (secretBaker : list (string * value)) : host :=
  Host (Some (secretBaker_config secretBaker)) (secretBaker_config secretBaker)
       example_backend no_refusal.

(** The state right after construction without CLI parameters, on an empty
    directory. *)
Definition constructed_state : state :=
  State (pkgHooks ++ cleanupHooks) (VStr defaultSecretsFile) None [] [] ∅
    std_descriptors.

(** The object the loop of lines 91-102 builds from secrets whose lookups
    succeed: one assignment per secret, in the order of the list. *)
Definition secrets_step (h : host) (o : obj resolved) (item : value) : obj resolved :=
  match ref_entry h item with
  | Some e => obj_set e.1 e.2 o
  | None => o
  end.

Definition secrets_object (h : host) (refs : list value) : obj resolved :=
  fold_left (secrets_step h) refs [].

(** The key a secret is stored under at line 98. *)
Definition secret_name (item : value) : string :=
  match getProp item "name" with
  | Ok name => js_toString name
  | Err _ => EmptyString
  end.

(** The reading of the specification: a pair is split at its first [=]. *)
Fixpoint split_first_eq (s : string) : option (string * string) :=
  match s with
  | EmptyString => None
  | String c s' =>
      if ascii_eqb c eq_sign then Some (EmptyString, s')
      else match split_first_eq s' with
           | Some (k, v) => Some (String c k, v)
           | None => None
           end
  end.

Definition spec_pair (s : string) : option (string * cli_param) :=
  match split_first_eq s with
  | Some (k, v) => Some (k, CliParam (str_trimEnd v) "cli")
  | None => None
  end.

(** What lines 49-53 assign for a piece: the key group, and under it the
    value group without its trailing white space, with the type [cli];
    [None] when the regular expression matches nowhere in the piece. *)
Definition pair_entry (s : string) : option (string * cli_param) :=
  match String_match optionsParamsRegex s with
  | Some groups =>
      match assoc "key" groups, assoc "value" groups with
      | Some key, Some value => Some (key, CliParam (str_trimEnd value) "cli")
      | _, _ => None
      end
  | None => None
  end.

Definition assign_pair (o : obj cli_param) (s : string) : obj cli_param :=
  match pair_entry s with
  | Some (k, p) => obj_set k p o
  | None => o
  end.

Fixpoint str_drop_while (p : ascii → bool) (s : string) : string :=
  match s with
  | EmptyString => EmptyString
  | String c s' => if p c then str_drop_while p s' else s
  end.

(** The pieces on which the regular expression and that reading agree: the
    key before the first [=] is not empty, the character after the first [=]
    is no line terminator, and from the first line terminator of the value
    on there is white space only. *)
Definition splits_at_first_eq (s : string) : bool :=
  match split_first_eq s with
  | Some (k, String b v) =>
      negb (str_is_empty k) && re_dot b
      && str_forall is_white_space (str_drop_while re_dot v)
  | _ => false
  end.

Definition line_feed : string := str1 (ascii_of_nat 10).


(** A service without a [custom] block, in a plain process. *)
Definition unconfigured_host : host :=
  Host None VUndefined example_backend no_refusal.

(** A text the regular expression of line 6 matches somewhere: a character
    other than [=], then [=], then a character that is no line terminator. *)
Fixpoint acceptable (s : string) : bool :=
  match s with
  | EmptyString => false
  | String a rest =>
      match rest with
      | String e (String b _) =>
          not_eq_sign a && ascii_eqb e eq_sign && re_dot b
      | _ => false
      end || acceptable rest
  end.

(** An entry of the table of parameters: its key is not empty, holds no [=]
    and no comma and is not [__proto__]; its type is [cli]; its value has no
    trailing white space and no line terminator. *)
Definition cli_entry_ok (kv : string * cli_param) : Prop :=
  kv.1 ≠ EmptyString
  ∧ str_mem eq_sign kv.1 = false
  ∧ str_mem "," kv.1 = false
  ∧ kv.1 ≠ "__proto__"
  ∧ cli_type kv.2 = "cli"
  ∧ str_trimEnd (cli_value kv.2) = cli_value kv.2
  ∧ str_forall re_dot (cli_value kv.2) = true.

(** * Properties *)

(** ** Numbers as text *)

Example Number_toString_examples :
  Number_toString 0 = "0"
  ∧ Number_toString 42 = "42"
  ∧ Number_toString (-7) = "-7"
  ∧ Number_toString 9007199254740993 = "9007199254740992"
  ∧ Number_toString 123456789012345678901 = "123456789012345680000"
  ∧ Number_toString (10 ^ 21) = "1e+21"
  ∧ Number_toString (2 ^ 70) = "1.1805916207174113e+21"
  ∧ Number_toString (2 ^ 1024) = "Infinity"
  ∧ js_toString (VArr [VNum 1; VNull; VStr "a"]) = "1,,a".
Proof. vm_compute. repeat split. Qed.

(** ** The monad *)

Lemma bind_Ok {A B : Type} (m : M A) (k : A → M B) (st st' : state) (a : A) :
  m st = (Ok a, st') → bind m k st = k a st'.
Proof. intros E. unfold bind. rewrite E. reflexivity. Qed.

Lemma bind_Err {A B : Type} (m : M A) (k : A → M B) (st st' : state) (e : error) :
  m st = (Err e, st') → bind m k st = (Err e, st').
Proof. intros E. unfold bind. rewrite E. reflexivity. Qed.

Lemma preserves_bind {A B X : Type} (proj : state → X) (m : M A) (k : A → M B) :
  preserves proj m → (∀ a, preserves proj (k a)) → preserves proj (bind m k).
Proof.
  intros Hm Hk st. unfold bind. specialize (Hm st).
  destruct (m st) as [[a | e] st1]; simpl in *.
  - rewrite Hk. exact Hm.
  - exact Hm.
Qed.

Lemma preserves_ret {A X : Type} (proj : state → X) (a : A) : preserves proj (ret a).
Proof. intros st. reflexivity. Qed.

Lemma preserves_throw {A X : Type} (proj : state → X) (e : error) :
  preserves proj (@throw A e).
Proof. intros st. reflexivity. Qed.

Lemma preserves_liftR {A X : Type} (proj : state → X) (r : result A) :
  preserves proj (liftR r).
Proof. intros st. reflexivity. Qed.

Lemma preserves_get {X : Type} (proj : state → X) : preserves proj get.
Proof. intros st. reflexivity. Qed.

Lemma preserves_modify {X : Type} (proj : state → X) (f : state → state) :
  (∀ st, proj (f st) = proj st) → preserves proj (modify f).
Proof. intros Hf st. simpl. apply Hf. Qed.

Ltac frame :=
  repeat first
    [ apply preserves_bind; [ | intros ? ]
    | apply preserves_ret | apply preserves_throw | apply preserves_liftR
    | apply preserves_get
    | apply preserves_modify; intros []; reflexivity ].

(** ** Frames of the plugin's operations *)

Lemma getSecretsConfig_frame {X : Type} (proj : state → X) (h : host) :
  (∀ x st, proj (set_secretsFile x st) = proj st) →
  preserves proj (getSecretsConfig h).
Proof.
  intros Hset. unfold getSecretsConfig.
  apply preserves_bind; [frame | intros v].
  apply preserves_bind; [frame | intros f].
  apply preserves_bind; [frame | intros st0].
  apply preserves_bind; [apply preserves_modify; intros; apply Hset | intros _].
  destruct (js_or v (VArr [])); simpl; frame.
Qed.

Lemma getParameterFromSsm_frame {X : Type} (proj : state → X) (h : host) (name : value) :
  (∀ x st, proj (set_requests x st) = proj st) →
  preserves proj (getParameterFromSsm h name).
Proof. intros Hset st. simpl. apply Hset. Qed.

Lemma resolve_secrets_frame {X : Type} (proj : state → X) (h : host)
    (refs : list value) (secrets : obj resolved) :
  (∀ x st, proj (set_requests x st) = proj st) →
  preserves proj (resolve_secrets h refs secrets).
Proof.
  intros Hset. revert secrets.
  induction refs as [| item rest IH]; intros secrets; simpl.
  - frame.
  - apply preserves_bind; [frame | intros name].
    apply preserves_bind; [frame | intros path].
    apply preserves_bind; [by apply getParameterFromSsm_frame | intros [p |]].
    + apply IH.
    + frame.
Qed.

Lemma fs_writeFile_frame {X : Type} (proj : state → X) (h : host) (path : value)
    (data : string) :
  (∀ x st, proj (set_files x st) = proj st) →
  (∀ x st, proj (set_descriptors x st) = proj st) →
  preserves proj (fs_writeFile h path data).
Proof.
  intros Hset Hfd st. unfold fs_writeFile.
  destruct path as [| | | n | p | |]; try reflexivity.
  - destruct ((0 <=? n)%Z && (n <? 2 ^ 31)%Z); [| reflexivity].
    destruct (descriptors st !! n); simpl; by rewrite ?Hfd.
  - destruct (write_error h (files st) p); simpl; by rewrite ?Hset.
Qed.

Lemma fs_unlinkSync_frame {X : Type} (proj : state → X) (path : value) :
  (∀ x st, proj (set_files x st) = proj st) →
  preserves proj (fs_unlinkSync path).
Proof.
  intros Hset st. unfold fs_unlinkSync.
  destruct path; try reflexivity.
  destruct (files st !! s) as [[] |]; simpl; by rewrite ?Hset.
Qed.

Lemma writeSecretToFile_hooks (h : host) : preserves hooks (writeSecretToFile h).
Proof.
  unfold writeSecretToFile.
  apply preserves_bind; [by apply getSecretsConfig_frame | intros refs].
  apply preserves_bind; [by apply resolve_secrets_frame | intros secrets].
  apply preserves_bind; [frame | intros st0].
  by apply fs_writeFile_frame.
Qed.

Lemma cleanupPackageSecrets_hooks : preserves hooks cleanupPackageSecrets.
Proof.
  unfold cleanupPackageSecrets.
  apply preserves_bind; [frame | intros st0].
  apply preserves_bind; [unfold cli_log_append; frame | intros _].
  apply preserves_bind; [frame | intros st1].
  destruct (fs_existsSync _ _); [by apply fs_unlinkSync_frame | frame].
Qed.

Lemma packageSecrets_hooks (h : host) : preserves hooks (packageSecrets h).
Proof.
  unfold packageSecrets.
  apply preserves_bind; [unfold cli_log_append; frame | intros _].
  apply preserves_bind; [frame | intros _].
  apply preserves_bind; [apply writeSecretToFile_hooks | intros _].
  frame.
Qed.

Lemma run_handler_hooks (h : host) (x : handler) : preserves hooks (run_handler h x).
Proof. destruct x; [apply packageSecrets_hooks | apply cleanupPackageSecrets_hooks]. Qed.

(** ** The parameter store client *)

Lemma strict_equals_number_spec (v : value) (n : Z) :
  strict_equals_number v n = true ↔ v = VNum n.
Proof.
  destruct v; simpl; try (split; [discriminate | intros [=]]).
  rewrite Z.eqb_eq. split; [intros -> | intros [=]]; done.
Qed.

Lemma resolve_secrets_requests (h : host) (refs : list value)
    (secrets : obj resolved) (st : state) :
  ∃ n, n ≤ length refs ∧
    requests (resolve_secrets h refs secrets st).2
    = requests st ++ map request_of_item (take n refs).
Proof.
  revert secrets st. induction refs as [| item rest IH]; intros secrets st.
  - exists 0. simpl. by rewrite app_nil_r.
  - simpl. unfold bind at 1. unfold liftR at 1.
    destruct (getProp item "name") as [name | e] eqn:Hname.
    2:{ exists 0. simpl. split; [lia | by rewrite app_nil_r]. }
    unfold bind at 1. unfold liftR at 1.
    destruct (getProp item "path") as [path | e] eqn:Hpath.
    2:{ exists 0. simpl. split; [lia | by rewrite app_nil_r]. }
    assert (Hitem : request_of_item item = ssm_request path)
      by (unfold request_of_item; by rewrite Hpath).
    unfold bind, getParameterFromSsm.
    destruct (settle _) as [[p |] | e].
    + destruct (IH (obj_set (js_toString name) (Resolved (Value p) (ARN p)) secrets)
                  (set_requests (requests st ++ [ssm_request path]) st))
        as (n & Hn & E).
      exists (S n). split; [simpl; lia |].
      rewrite E. cbn [take map requests set_requests]. rewrite Hitem.
      by rewrite <- app_assoc.
    + exists 1. split; [simpl; lia |].
      cbn [take map requests set_requests snd]. by rewrite Hitem, take_0.
    + exists 1. split; [simpl; lia |].
      cbn [take map requests set_requests snd]. by rewrite Hitem, take_0.
Qed.

(** C3: a lookup sends exactly one request, for the given path, with
    decryption disabled and caching enabled, and changes nothing else; it
    yields the parameter of a successful response, yields absent when the
    failure has status 400, and otherwise fails with the host's error type
    around the message of the backend.  Every request a materialization adds
    has that shape, one per secret at most. *)
Theorem getParameterFromSsm_contract (h : host) (path : value) (st : state) :
  let req := ssm_request path in
  let run := getParameterFromSsm h path st in
  (req_Name req = path ∧ req_WithDecryption req = false ∧ req_useCache req = true)
  ∧ run.2 = set_requests (requests st ++ [req]) st
  ∧ match provider_request h req with
    | Fulfilled p => run.1 = Ok p
    | Rejected err =>
        (statusCode err = VNum 400 → run.1 = Ok None)
        ∧ (statusCode err ≠ VNum 400 → run.1 = Err (ServerlessError (message err)))
    end
  ∧ ∃ sent, requests (writeSecretToFile h st).2 = requests st ++ sent
      ∧ Forall (λ r, req_WithDecryption r = false ∧ req_useCache r = true) sent.
Proof.
  simpl. split; [done |]. split; [done |]. split.
  - unfold settle. destruct (provider_request h (ssm_request path)) as [p | err]; [done |].
    destruct (strict_equals_number (statusCode err) 400) eqn:E; simpl.
    + apply strict_equals_number_spec in E. split; [done | intros H; by destruct H].
    + split; [| done]. intros H. apply strict_equals_number_spec in H. congruence.
  - unfold writeSecretToFile, bind.
    pose proof (getSecretsConfig_frame requests h (λ _ _, eq_refl) st) as Hcfg.
    destruct (getSecretsConfig h st) as [[refs | e] st1]; simpl in Hcfg.
    2:{ exists []. simpl. rewrite app_nil_r. split; [done | constructor]. }
    destruct (resolve_secrets_requests h refs [] st1) as (n & _ & Hreq).
    assert (Hshape : Forall (λ r, req_WithDecryption r = false ∧ req_useCache r = true)
                       (map request_of_item (take n refs))).
    { apply Forall_forall. intros r Hr. apply list_elem_of_fmap in Hr as (item & -> & _). done. }
    destruct (resolve_secrets h refs [] st1) as [[secrets | e] st2]; simpl in Hreq.
    2:{ exists (map request_of_item (take n refs)). simpl. by rewrite Hreq, Hcfg. }
    exists (map request_of_item (take n refs)). split; [| done].
    unfold get.
    rewrite (fs_writeFile_frame requests h _ _ (λ _ _, eq_refl) (λ _ _, eq_refl) st2).
    by rewrite Hreq, Hcfg.
Qed.

Example settle_examples :
  settle (Fulfilled (Some (SsmParameter "s3cr3t" "arn:aws:ssm:x"))) 
  = Ok (Some (SsmParameter "s3cr3t" "arn:aws:ssm:x"))
  ∧ settle (Rejected (AwsError (VNum 400) "ParameterNotFound")) = Ok None
  ∧ settle (Rejected (AwsError (VNum 500) "boom")) = Err (ServerlessError "boom")
  ∧ settle (Rejected (AwsError (VStr "400") "boom")) = Err (ServerlessError "boom")
  ∧ settle (Rejected (AwsError VUndefined "timeout")) = Err (ServerlessError "timeout").
Proof. repeat split. Qed.

(** ** The constructor and the lifecycle hooks *)

Example constructor_without_parameters :
  constructor (Options None) empty_state = Ok constructed_state.
Proof. reflexivity. Qed.

(** C7: construction decides the hooks from the parsed parameters.  When
    they hold the key [secret-baker-cleanup], the four packaging events are
    bound to packaging and no other event is bound, so cleanup is bound to
    nothing; when they do not, the four cleanup events are bound to cleanup
    as well.  No lifecycle operation changes the hooks afterwards. *)
Theorem constructor_cleanup_suppression (opts : options) (st : state)
    (params : obj cli_param) :
  readParams (default [] (param opts)) = Ok params →
  ∃ st', constructor opts st = Ok st'
    ∧ match assoc "secret-baker-cleanup" params with
      | Some _ =>
          hooks st'
          = [ ("before:package:createDeploymentArtifacts", PackageSecrets);
              ("before:deploy:function:packageFunction", PackageSecrets);
              ("before:offline:start", PackageSecrets);
              ("before:invoke:local:invoke", PackageSecrets) ]
      | None =>
          hooks st'
          = [ ("before:package:createDeploymentArtifacts", PackageSecrets);
              ("before:deploy:function:packageFunction", PackageSecrets);
              ("before:offline:start", PackageSecrets);
              ("before:invoke:local:invoke", PackageSecrets);
              ("after:package:createDeploymentArtifacts", CleanupPackageSecrets);
              ("after:deploy:function:packageFunction", CleanupPackageSecrets);
              ("before:offline:start:end", CleanupPackageSecrets);
              ("after:invoke:local:invoke", CleanupPackageSecrets) ]
      end
    ∧ ∀ h x st1, hooks (run_handler h x st1).2 = hooks st1.
Proof.
  intros Hparams. unfold constructor. rewrite Hparams. simpl.
  eexists. split; [reflexivity |]. split.
  - unfold shouldCleanup.
    change suppression_key with "secret-baker-cleanup".
    destruct (assoc "secret-baker-cleanup" params); reflexivity.
  - intros h x st1. apply run_handler_hooks.
Qed.

Lemma constructor_cleanup_suppression_witness :
  (readParams ["secret-baker-cleanup=false"]
   = Ok [("secret-baker-cleanup", CliParam "false" "cli")]
   ∧ ∃ st', constructor (Options (Some ["secret-baker-cleanup=false"])) empty_state = Ok st'
       ∧ length (hooks st') = 4
       ∧ assoc "before:package:createDeploymentArtifacts" (hooks st')
         = Some PackageSecrets
       ∧ assoc "after:package:createDeploymentArtifacts" (hooks st') = None
       ∧ assoc "after:deploy:function:packageFunction" (hooks st') = None
       ∧ assoc "before:offline:start:end" (hooks st') = None
       ∧ assoc "after:invoke:local:invoke" (hooks st') = None)
  ∧ (readParams ["stage=dev"] = Ok [("stage", CliParam "dev" "cli")]
     ∧ ∃ st', constructor (Options (Some ["stage=dev"])) empty_state = Ok st'
         ∧ length (hooks st') = 8
         ∧ assoc "before:package:createDeploymentArtifacts" (hooks st')
           = Some PackageSecrets
         ∧ assoc "after:package:createDeploymentArtifacts" (hooks st')
           = Some CleanupPackageSecrets
         ∧ assoc "after:deploy:function:packageFunction" (hooks st')
           = Some CleanupPackageSecrets
         ∧ assoc "before:offline:start:end" (hooks st') = Some CleanupPackageSecrets
         ∧ assoc "after:invoke:local:invoke" (hooks st') = Some CleanupPackageSecrets).
Proof.
  split.
  - split; [reflexivity |].
    destruct (constructor_cleanup_suppression
                (Options (Some ["secret-baker-cleanup=false"])) empty_state
                [("secret-baker-cleanup", CliParam "false" "cli")] eq_refl)
      as (st' & Hc & Hh & _).
    exists st'. split; [exact Hc |]. simpl in Hh. rewrite Hh. repeat split.
  - split; [reflexivity |].
    destruct (constructor_cleanup_suppression
                (Options (Some ["stage=dev"])) empty_state
                [("stage", CliParam "dev" "cli")] eq_refl)
      as (st' & Hc & Hh & _).
    exists st'. split; [exact Hc |]. simpl in Hh. rewrite Hh. repeat split.
Defined.

(** ** Cleanup *)

(** C8: cleanup removes the file at [secretsFile] when it is there, does
    nothing and raises nothing when no file is there, and in every case
    leaves all other paths as they were. *)
Theorem cleanup_only_output_file (st : state) (p : string) :
  secretsFile st = VStr p →
  (∀ c, files st !! p = Some (File c) →
        (cleanupPackageSecrets st).1 = Ok tt
        ∧ files (cleanupPackageSecrets st).2 = delete p (files st))
  ∧ (files st !! p = None →
        (cleanupPackageSecrets st).1 = Ok tt
        ∧ files (cleanupPackageSecrets st).2 = files st)
  ∧ (∀ q, q ≠ p → files (cleanupPackageSecrets st).2 !! q = files st !! q).
Proof.
  intros Hp. unfold cleanupPackageSecrets, bind, get, cli_log_append, modify.
  unfold fs_existsSync, fs_unlinkSync.
  cbn [files secretsFile set_cli_log fst snd]. rewrite Hp.
  split; [| split].
  - intros c Hc. rewrite Hc.
    rewrite bool_decide_eq_true_2 by eauto. cbn. by rewrite Hc.
  - intros Hnone. rewrite Hnone.
    by rewrite bool_decide_eq_false_2 by (by intros [? [=]]).
  - intros q Hq. case_bool_decide as Hex; [| done].
    cbn. destruct (files st !! p) as [[c |] |] eqn:E; try done.
    cbn. by rewrite lookup_delete_ne.
Qed.

Lemma cleanup_only_output_file_witness :
  let st := State pkgHooks (VStr defaultSecretsFile) None [] []
              {[ defaultSecretsFile := File "{}" ]} std_descriptors in
  secretsFile st = VStr defaultSecretsFile
  ∧ (cleanupPackageSecrets st).1 = Ok tt
  ∧ files (cleanupPackageSecrets st).2 = delete defaultSecretsFile (files st).
Proof.
  intros st. split; [reflexivity |].
  exact (proj1 (cleanup_only_output_file st defaultSecretsFile eq_refl) "{}" eq_refl).
Defined.

(** ** Normalization and the state *)

Lemma set_secretsFile_id (st : state) : set_secretsFile (secretsFile st) st = st.
Proof. by destruct st. Qed.

(** Normalization changes [secretsFile] at most, and both its result and the
    path it settles on depend on the state through [secretsFile] alone. *)
Lemma getSecretsConfig_state (h : host) (st st1 : state) (r : result (list value)) :
  getSecretsConfig h st = (r, st1) →
  ∀ st2, secretsFile st2 = secretsFile st →
    getSecretsConfig h st2 = (r, set_secretsFile (secretsFile st1) st2).
Proof.
  unfold getSecretsConfig, bind, liftR, get, modify.
  destruct (read_secretBaker h "secrets") as [v | e].
  2:{ intros [= <- <-] st2 <-. by rewrite set_secretsFile_id. }
  destruct (read_secretBaker h "filePath") as [f | e].
  2:{ intros [= <- <-] st2 <-. by rewrite set_secretsFile_id. }
  intros E st2 Hst2. rewrite Hst2.
  destruct (js_or v (VArr [])); simpl in *; injection E as <- <-; reflexivity.
Qed.

(** ** Materialization *)

Lemma resolve_secrets_step (h : host) (item : value) (rest : list value)
    (e : string * resolved) (secrets : obj resolved) (st : state) :
  ref_entry h item = Some e →
  resolve_secrets h (item :: rest) secrets st
  = resolve_secrets h rest (obj_set e.1 e.2 secrets)
      (set_requests (requests st ++ [request_of_item item]) st).
Proof.
  unfold ref_entry, request_of_item, fetch. simpl.
  unfold bind at 1, liftR at 1.
  destruct (getProp item "name") as [name |]; [| done].
  unfold bind at 1, liftR at 1.
  destruct (getProp item "path") as [path |]; [| done].
  unfold bind, getParameterFromSsm.
  destruct (settle _) as [[p |] |]; [| done | done].
  by intros [= <-].
Qed.

Lemma resolve_secrets_found (h : host) (refs : list value)
    (entries : list (string * resolved)) (secrets : obj resolved) (st : state) :
  mapM (ref_entry h) refs = Some entries →
  resolve_secrets h refs secrets st
  = (Ok (fold_left (λ o e, obj_set e.1 e.2 o) entries secrets),
     set_requests (requests st ++ map request_of_item refs) st).
Proof.
  revert entries secrets st.
  induction refs as [| item rest IH]; intros entries secrets st Hm.
  - injection Hm as <-. simpl. rewrite app_nil_r. by destruct st.
  - rewrite mapM_Some in Hm. inversion Hm as [| ? e ? es He Hes]; subst.
    rewrite (resolve_secrets_step h item rest e) by done.
    rewrite (IH es) by (by apply mapM_Some).
    cbn [fold_left map requests set_requests]. by rewrite <- app_assoc.
Qed.


(** A write that is refused changes nothing. *)
Lemma fs_writeFile_failure (h : host) (path : value) (data : string) (st : state)
    (e : error) :
  (fs_writeFile h path data st).1 = Err e → (fs_writeFile h path data st).2 = st.
Proof.
  unfold fs_writeFile.
  destruct path as [| | | n | p | |]; try done.
  - destruct ((0 <=? n)%Z && (n <? 2 ^ 31)%Z); [| done].
    by destruct (descriptors st !! n).
  - by destruct (write_error h (files st) p).
Qed.

Lemma dirname_None_no_slash (p : string) :
  dirname p = None → ends_with_slash p = false.
Proof.
  induction p as [| c p IH]; [done |]. cbn [dirname ends_with_slash].
  destruct (dirname p) as [d |] eqn:E; [done |].
  destruct (ascii_eqb c "/") eqn:Hc; [done |]. intros _.
  destruct p; [done | by apply IH].
Qed.

(** For a file name in the working directory, what can stand in the way is
    a directory of that name, or the environment. *)
Lemma write_error_file_name (h : host) (fs : gmap string node) (p : string) :
  p ≠ EmptyString → dirname p = None →
  write_error h fs p
  = match fs !! p with
    | Some Dir => Some (FsError "EISDIR")
    | _ => write_refusal h p
    end.
Proof.
  intros Hp Hdir. unfold write_error.
  rewrite (dirname_None_no_slash p Hdir), Hdir. by destruct p.
Qed.

Example write_error_examples :
  let h := unconfigured_host in
  write_error h ∅ defaultSecretsFile = None
  ∧ write_error h {[ defaultSecretsFile := File "{}" ]} defaultSecretsFile = None
  ∧ write_error h {[ defaultSecretsFile := Dir ]} defaultSecretsFile
    = Some (FsError "EISDIR")
  ∧ write_error h ∅ "build/secrets.json" = Some (FsError "ENOENT")
  ∧ write_error h {[ "build" := Dir ]} "build/secrets.json" = None
  ∧ write_error h {[ "build" := File "x" ]} "build/secrets.json"
    = Some (FsError "ENOTDIR")
  ∧ write_error h {[ "build" := Dir ]} "build/" = Some (FsError "EISDIR")
  ∧ write_error h ∅ "/secrets.json" = None
  ∧ write_error h ∅ EmptyString = Some (FsError "ENOENT").
Proof. vm_compute. repeat split. Qed.

(** A write with nothing in its way. *)
Lemma fs_writeFile_path (h : host) (p data : string) (st : state) :
  write_error h (files st) p = None →
  fs_writeFile h (VStr p) data st
  = (Ok tt, set_files (<[p := File data]> (files st)) st).
Proof. intros Hfree. unfold fs_writeFile. by rewrite Hfree. Qed.

(** The write is the last step: a materialization that fails, fails with
    the files as they were. *)
Lemma writeSecretToFile_failure_writes_nothing (h : host) (st : state) (e : error) :
  (writeSecretToFile h st).1 = Err e → files (writeSecretToFile h st).2 = files st.
Proof.
  unfold writeSecretToFile, bind.
  pose proof (getSecretsConfig_frame files h (λ _ _, eq_refl) st) as Hcfg.
  destruct (getSecretsConfig h st) as [[refs | e1] st1]; simpl in Hcfg; [| done].
  pose proof (resolve_secrets_frame files h refs [] (λ _ _, eq_refl) st1) as Hres.
  destruct (resolve_secrets h refs [] st1) as [[secrets | e2] st2]; simpl in Hres.
  2:{ intros _. simpl. congruence. }
  unfold get. intros Hfail.
  pose proof (fs_writeFile_failure h (secretsFile st2) (JSON_stringify secrets) st2 e Hfail)
    as Hw.
  rewrite Hw. congruence.
Qed.



(** ** The secrets object *)

Lemma assoc_None {A : Type} (k : string) (o : obj A) :
  assoc k o = None ↔ k ∉ o.*1.
Proof.
  induction o as [| [k' v] o IH]; simpl.
  - split; [intros _; apply not_elem_of_nil | done].
  - rewrite not_elem_of_cons. destruct (decide (k' = k)) as [-> | Hne].
    + split; [done | by intros [? _]].
    + rewrite IH. split; [by intros ? | by intros [_ ?]].
Qed.


Lemma obj_insert_index_perm {A : Type} (n : N) (k : string) (v : A) (o : obj A) :
  obj_insert_index n k v o ≡ₚ (k, v) :: o.
Proof.
  induction o as [| [k' v'] o IH]; simpl; [done |].
  destruct (array_index k') as [m |]; [| done].
  destruct (n <? m)%N; [done |].
  rewrite IH. apply Permutation_swap.
Qed.

(** A new key that is not [__proto__] adds one property. *)
Lemma obj_set_fresh {A : Type} (k : string) (v : A) (o : obj A) :
  k ≠ "__proto__" → k ∉ o.*1 → obj_set k v o ≡ₚ o ++ [(k, v)].
Proof.
  intros Hk Hfresh. unfold obj_set. rewrite decide_False by done.
  apply assoc_None in Hfresh. rewrite Hfresh.
  destruct (array_index k); [| done].
  rewrite obj_insert_index_perm. apply Permutation_cons_append.
Qed.


Lemma ref_entry_Some (h : host) (item : value) (e : string * resolved) :
  ref_entry h item = Some e →
  ∃ name path prm,
    getProp item "name" = Ok name ∧ getProp item "path" = Ok path
    ∧ fetch h path = Ok (Some prm)
    ∧ e = (js_toString name, Resolved (Value prm) (ARN prm)).
Proof.
  unfold ref_entry.
  destruct (getProp item "name") as [name |]; [| done].
  destruct (getProp item "path") as [path |]; [| done].
  destruct (fetch h path) as [[prm |] |] eqn:Hf; [| done | done].
  intros [= <-]. by exists name, path, prm.
Qed.

Lemma found_entries (h : host) (refs : list value) :
  Forall (λ x, found h x = true) refs →
  ∃ entries, mapM (ref_entry h) refs = Some entries
    ∧ entries.*1 = map secret_name refs.
Proof.
  induction 1 as [| item refs Hitem _ (entries & Hm & Hnames)].
  - exists []. split; reflexivity.
  - apply bool_decide_eq_true in Hitem as [e He].
    exists (e :: entries). split.
    + apply mapM_Some. constructor; [done | by apply mapM_Some].
    + rewrite fmap_cons. cbn [map]. rewrite Hnames. f_equal.
      apply ref_entry_Some in He as (name & path & prm & Hn & _ & _ & ->).
      unfold secret_name. by rewrite Hn.
Qed.

(** Packaging, step by step: the log line, the include list, the
    materialization, and the path appended when that succeeded. *)
Lemma packageSecrets_run (h : host) (st : state) :
  let sta :=
    set_package_include (Some (default [] (package_include st)))
      (set_cli_log
         (cli_log st ++ ["Serverless Secrets beginning packaging process"]) st) in
  packageSecrets h st
  = match writeSecretToFile h sta with
    | (Ok _, st2) =>
        (Ok tt,
         set_package_include
           (Some (default [] (package_include st2) ++ [secretsFile st2])) st2)
    | (Err e, st2) => (Err e, st2)
    end.
Proof.
  cbn zeta. unfold packageSecrets, bind at 1 2, cli_log_append, modify.
  unfold bind at 1. by destruct (writeSecretToFile h _) as [[[] | e] st2].
Qed.

Lemma secrets_object_entries (h : host) (refs : list value)
    (entries : list (string * resolved)) (acc : obj resolved) :
  Forall2 (λ x y, ref_entry h x = Some y) refs entries →
  fold_left (secrets_step h) refs acc = fold_left (λ o e, obj_set e.1 e.2 o) entries acc.
Proof.
  intros Hm. revert acc.
  induction Hm as [| item e refs entries He _ IH]; intros acc; [done |].
  cbn [fold_left]. unfold secrets_step at 2. rewrite He. apply IH.
Qed.

(** The run of packaging when every lookup succeeds and the write is
    accepted. *)
Lemma packageSecrets_all_found (h : host) (st st1 : state) (refs : list value)
    (p : string) :
  getSecretsConfig h st = (Ok refs, st1) →
  Forall (λ x, found h x = true) refs →
  secretsFile st1 = VStr p →
  write_error h (files st) p = None →
  ∃ st', packageSecrets h st = (Ok tt, st')
    ∧ files st' = <[p := File (JSON_stringify (secrets_object h refs))]> (files st)
    ∧ package_include st' = Some (default [] (package_include st) ++ [VStr p])
    ∧ requests st' = requests st ++ map request_of_item refs
    ∧ descriptors st' = descriptors st.
Proof.
  intros Hcfg Hfound Hpath Hfree.
  destruct (found_entries h refs Hfound) as (entries & Hm & _).
  set (sta := set_package_include (Some (default [] (package_include st)))
                (set_cli_log
                   (cli_log st ++ ["Serverless Secrets beginning packaging process"]) st)).
  pose proof (getSecretsConfig_state h st st1 (Ok refs) Hcfg sta eq_refl) as Hcfg'.
  pose proof (resolve_secrets_found h refs entries []
                (set_secretsFile (secretsFile st1) sta) Hm) as Hres.
  rewrite <- (secrets_object_entries h refs entries []) in Hres
    by (by apply mapM_Some).
  fold (secrets_object h refs) in Hres.
  eexists. split; [| split; [| split; [| split]]].
  - unfold packageSecrets, bind at 1 2, cli_log_append, modify. fold sta.
    unfold bind at 1, writeSecretToFile. rewrite (bind_Ok _ _ _ _ _ Hcfg').
    rewrite (bind_Ok _ _ _ _ _ Hres).
    unfold bind at 1, get. cbn [secretsFile set_requests set_secretsFile].
    rewrite Hpath, fs_writeFile_path by exact Hfree.
    reflexivity.
  - reflexivity.
  - reflexivity.
  - reflexivity.
  - reflexivity.
Qed.

(** The run of packaging when every lookup succeeds and the write is
    refused. *)
Lemma packageSecrets_all_found_refused (h : host) (st st1 : state)
    (refs : list value) (p : string) (e : error) :
  getSecretsConfig h st = (Ok refs, st1) →
  Forall (λ x, found h x = true) refs →
  secretsFile st1 = VStr p →
  write_error h (files st) p = Some e →
  (packageSecrets h st).1 = Err e
  ∧ requests (packageSecrets h st).2 = requests st ++ map request_of_item refs
  ∧ files (packageSecrets h st).2 = files st
  ∧ package_include (packageSecrets h st).2 = Some (default [] (package_include st)).
Proof.
  intros Hcfg Hfound Hpath Hrefused.
  destruct (found_entries h refs Hfound) as (entries & Hm & _).
  set (sta := set_package_include (Some (default [] (package_include st)))
                (set_cli_log
                   (cli_log st ++ ["Serverless Secrets beginning packaging process"]) st)).
  pose proof (getSecretsConfig_state h st st1 (Ok refs) Hcfg sta eq_refl) as Hcfg'.
  pose proof (resolve_secrets_found h refs entries []
                (set_secretsFile (secretsFile st1) sta) Hm) as Hres.
  assert (Hw : writeSecretToFile h sta
               = (Err e, set_requests (requests st ++ map request_of_item refs)
                           (set_secretsFile (VStr p) sta))).
  { unfold writeSecretToFile. rewrite (bind_Ok _ _ _ _ _ Hcfg').
    rewrite (bind_Ok _ _ _ _ _ Hres).
    unfold bind at 1, get. cbn [secretsFile set_requests set_secretsFile].
    rewrite Hpath. unfold fs_writeFile. cbn [files set_requests set_secretsFile sta
      set_package_include set_cli_log].
    by rewrite Hrefused. }
  rewrite packageSecrets_run. cbn zeta. fold sta. rewrite Hw. done.
Qed.




(** ** Normalization *)

(** The defect of lines 60 and 61: once [custom.secretBaker] of the service
    is truthy, the free identifier [custom] is read; with no such global the
    read throws, before any shape is looked at and before [secretsFile] is
    touched. *)
Lemma getSecretsConfig_unbound_custom (h : host) (st : state) (sb : value) :
  global_custom h = None →
  truthy (service_custom h) = true →
  getProp (service_custom h) "secretBaker" = Ok sb →
  truthy sb = true →
  getSecretsConfig h st = (Err (ReferenceError "custom"), st).
Proof.
  intros Hglobal Hsc Hsb Htruthy.
  unfold getSecretsConfig, bind, liftR, read_secretBaker, lookup_custom.
  by rewrite Hsc, Hsb, Hglobal; simpl; rewrite Htruthy.
Qed.

(** A truthy declaration was read through [custom], so the file path is
    read without error too. *)
Lemma read_secretBaker_truthy (h : host) (field field' : string) (d : value) :
  read_secretBaker h field = Ok d → truthy d = true →
  ∃ f, read_secretBaker h field' = Ok f.
Proof.
  unfold read_secretBaker, lookup_custom.
  destruct (truthy (service_custom h)) eqn:Hsc; [| intros [= <-]; congruence].
  destruct (getProp (service_custom h) "secretBaker") as [sb |]; simpl; [| done].
  destruct (truthy sb) eqn:Hsb; [| intros [= <-]; congruence].
  destruct (global_custom h) as [c |]; simpl; [| done].
  destruct (getProp c "secretBaker") as [csb |]; simpl; [| done].
  destruct csb; simpl; try done; eauto.
Qed.

(** What the shape test does with the declaration that was read. *)
Lemma getSecretsConfig_shapes (h : host) (st : state) (d f : value) :
  read_secretBaker h "secrets" = Ok d →
  read_secretBaker h "filePath" = Ok f →
  let path := if truthy f then f else secretsFile st in
  getSecretsConfig h st
  = (match js_or d (VArr []) with
     | VArr items => Ok (map secret_of_item items)
     | VObj props => Ok (map secret_of_entry props)
     | VNull => Err TypeError
     | _ => Err (ServerlessError config_error_message)
     end,
     set_secretsFile path st).
Proof.
  intros Hd Hf path. unfold getSecretsConfig, bind, liftR, get, modify.
  rewrite Hd, Hf.
  assert (Hpath : (if truthy (js_or f VUndefined) then js_or f VUndefined
                   else secretsFile st) = path).
  { unfold path, js_or. by destruct (truthy f) eqn:Hft; simpl; rewrite ?Hft. }
  rewrite Hpath. generalize (js_or d (VArr [])). intros secrets.
  by destruct secrets.
Qed.

(** Line 81, once the declaration has been read: when it is truthy and is
    neither an array nor an object (a non-empty string, a non-zero number,
    [true]), normalization fails with the host's error type, and so does
    packaging, which sends no request and writes no file. *)
Lemma getSecretsConfig_rejects_scalar (h : host) (st : state) (d : value) :
  read_secretBaker h "secrets" = Ok d →
  truthy d = true →
  Array_isArray d = false →
  typeof d ≠ "object" →
  (getSecretsConfig h st).1 = Err (ServerlessError config_error_message)
  ∧ (packageSecrets h st).1 = Err (ServerlessError config_error_message)
  ∧ requests (packageSecrets h st).2 = requests st
  ∧ files (packageSecrets h st).2 = files st.
Proof.
  intros Hd Htruthy Harr Hobj.
  destruct (read_secretBaker_truthy h "secrets" "filePath" d Hd Htruthy) as [f Hf].
  assert (Hcfg : ∀ st0, ∃ st1,
            getSecretsConfig h st0 = (Err (ServerlessError config_error_message), st1)
            ∧ requests st1 = requests st0 ∧ files st1 = files st0).
  { intros st0. exists (set_secretsFile (if truthy f then f else secretsFile st0) st0).
    split; [| done]. rewrite (getSecretsConfig_shapes h st0 d f Hd Hf).
    unfold js_or. rewrite Htruthy. destruct d; simpl in *; done. }
  split.
  - destruct (Hcfg st) as (st1 & -> & _). done.
  - destruct (Hcfg (set_package_include (Some (default [] (package_include st)))
                      (set_cli_log
                         (cli_log st ++ ["Serverless Secrets beginning packaging process"])
                         st)))
      as (st1 & E & Hreq & Hfiles).
    assert (Hpkg : packageSecrets h st
                   = (Err (ServerlessError config_error_message), st1)).
    { unfold packageSecrets, bind at 1 2, cli_log_append, modify.
      unfold bind at 1, writeSecretToFile. by rewrite (bind_Err _ _ _ _ _ E). }
    rewrite Hpkg. cbn [fst snd]. by rewrite Hreq, Hfiles.
Qed.

Example getSecretsConfig_rejects_scalar_example :
  let h := host_with_global [("secrets", VStr "DB_PASSWORD")] in
  read_secretBaker h "secrets" = Ok (VStr "DB_PASSWORD")
  ∧ (getSecretsConfig h constructed_state).1 = Err (ServerlessError config_error_message)
  ∧ (packageSecrets h constructed_state).1 = Err (ServerlessError config_error_message)
  ∧ requests (packageSecrets h constructed_state).2 = []
  ∧ files (packageSecrets h constructed_state).2 = ∅.
Proof.
  intros h. split; [reflexivity |].
  apply (getSecretsConfig_rejects_scalar h constructed_state (VStr "DB_PASSWORD"));
    [reflexivity | reflexivity | reflexivity | discriminate].
Qed.

(** Line 60 ends in [|| []]: a declaration that was read and is the empty
    string, or the number zero, is replaced by the empty list. *)
Example getSecretsConfig_falsy_declaration :
  (getSecretsConfig (host_with_global [("secrets", VStr EmptyString)]) constructed_state).1
  = Ok []
  ∧ (getSecretsConfig (host_with_global [("secrets", VNum 0)]) constructed_state).1
    = Ok [].
Proof. split; reflexivity. Qed.

(** C5, on the code: in a plain process a declaration that is a string, or
    a number, makes normalization throw on the identifier [custom] at line
    60: the error is the engine's [ReferenceError], not the error type of the
    host that line 81 would raise.  Packaging ends with the same error; no
    request is sent and no file is written. *)
Theorem getSecretsConfig_scalar_throws :
  let h := plain_host [("secrets", VStr "DB_PASSWORD")] in
  let h' := plain_host [("secrets", VNum 42)] in
  getSecretsConfig h constructed_state
  = (Err (ReferenceError "custom"), constructed_state)
  ∧ getSecretsConfig h' constructed_state
    = (Err (ReferenceError "custom"), constructed_state)
  ∧ (packageSecrets h constructed_state).1 = Err (ReferenceError "custom")
  ∧ (packageSecrets h' constructed_state).1 = Err (ReferenceError "custom")
  ∧ requests (packageSecrets h constructed_state).2 = []
  ∧ requests (packageSecrets h' constructed_state).2 = []
  ∧ files (packageSecrets h constructed_state).2 !! defaultSecretsFile = None
  ∧ files (packageSecrets h' constructed_state).2 !! defaultSecretsFile = None.
Proof.
  intros h h'.
  split; [by eapply getSecretsConfig_unbound_custom |].
  split; [by eapply getSecretsConfig_unbound_custom |].
  vm_compute. repeat split.
Qed.

(** What lines 64-79 make of a declaration once it has been read: a string
    of a list becomes a secret whose name and path are that string, any
    other element of a list is kept as it is, and an entry of a mapping
    becomes a secret named by its key, all in the order of the declaration. *)
Lemma getSecretsConfig_normalizes (h : host) (st : state) (d f : value) :
  read_secretBaker h "secrets" = Ok d →
  read_secretBaker h "filePath" = Ok f →
  (∀ names, d = VArr (map VStr names) →
     (getSecretsConfig h st).1
     = Ok (map (λ s, VObj [("name", VStr s); ("path", VStr s)]) names))
  ∧ (∀ items, d = VArr items →
       (getSecretsConfig h st).1 = Ok (map secret_of_item items)
       ∧ Forall (λ item, (∀ s, item ≠ VStr s) → secret_of_item item = item) items)
  ∧ (∀ props, d = VObj props →
       (getSecretsConfig h st).1
       = Ok (map (λ kv, VObj [("name", VStr kv.1); ("path", kv.2)]) props)).
Proof.
  intros Hd Hf. rewrite (getSecretsConfig_shapes h st d f Hd Hf).
  split; [| split].
  - intros names ->. simpl. f_equal. by rewrite map_map.
  - intros items ->. split; [done |].
    apply Forall_forall. intros item _ Hitem. destruct item; try done.
    by destruct (Hitem s).
  - by intros props ->.
Qed.

(** C4, on the code: in a plain process a declared list and a declared
    mapping both make normalization throw on the identifier [custom]; no
    secret is produced. *)
Theorem getSecretsConfig_declared_throws :
  getSecretsConfig (plain_host [("secrets", VArr [VStr "DB_PASSWORD"])])
    constructed_state
  = (Err (ReferenceError "custom"), constructed_state)
  ∧ getSecretsConfig
      (plain_host [("secrets", VObj [("DB_PASSWORD", VStr "/prod/db/password")])])
      constructed_state
    = (Err (ReferenceError "custom"), constructed_state).
Proof. split; by eapply getSecretsConfig_unbound_custom. Qed.

(** C10, on the code: in a plain process a list that holds an object makes
    normalization throw on the identifier [custom]; the object is not passed
    through. *)
Theorem getSecretsConfig_object_element_throws :
  getSecretsConfig
    (plain_host
       [("secrets",
         VArr [VObj [("name", VStr "DB_PASSWORD"); ("path", VStr "/prod/db/password")]])])
    constructed_state
  = (Err (ReferenceError "custom"), constructed_state).
Proof. by eapply getSecretsConfig_unbound_custom. Qed.

(** ** The output path *)

(** When the two reads succeed, the path is the configured one if that is
    truthy and the path held before otherwise. *)
Lemma getSecretsConfig_output_path (h : host) (st : state) (d f : value) :
  read_secretBaker h "secrets" = Ok d →
  read_secretBaker h "filePath" = Ok f →
  secretsFile (getSecretsConfig h st).2 = if truthy f then f else secretsFile st.
Proof. intros Hd Hf. by rewrite (getSecretsConfig_shapes h st d f Hd Hf). Qed.

(** Once normalization has settled on a path, no lifecycle operation moves
    it: packaging and cleanup use the same path. *)
Lemma output_path_fixed (h : host) (x : handler) (st : state) :
  secretsFile (getSecretsConfig h st).2 = secretsFile st →
  secretsFile (run_handler h x st).2 = secretsFile st.
Proof.
  intros Hfix. destruct x; simpl.
  - unfold packageSecrets, bind at 1 2, cli_log_append, modify.
    set (sta := set_package_include _ _).
    assert (Hw : secretsFile (writeSecretToFile h sta).2 = secretsFile st).
    { unfold writeSecretToFile, bind at 1.
      destruct (getSecretsConfig h st) as [r st1] eqn:E.
      rewrite (getSecretsConfig_state h st st1 r E sta eq_refl).
      simpl in Hfix. destruct r as [refs | e]; [| by rewrite Hfix].
      rewrite preserves_bind; [by rewrite Hfix | |].
      - by apply resolve_secrets_frame.
      - intros secrets. apply preserves_bind; [apply preserves_get |].
        intros st0. by apply fs_writeFile_frame. }
    unfold bind.
    destruct (writeSecretToFile h sta) as [[[] | e] st2]; simpl in *; done.
  - unfold cleanupPackageSecrets.
    rewrite preserves_bind; [done | apply preserves_get |].
    intros st0. apply preserves_bind; [by apply preserves_modify; intros [] |].
    intros _. apply preserves_bind; [apply preserves_get |].
    intros st1. destruct (fs_existsSync _ _); [by apply fs_unlinkSync_frame |].
    apply preserves_ret.
Qed.

(** C6, on the code: with a custom path configured in a plain process,
    packaging throws on the identifier [custom] before line 62 is reached;
    the path stays the default name, and that is the path cleanup then
    looks for. *)
Theorem packageSecrets_custom_path_ignored :
  let h := plain_host [("secrets", VArr [VStr "DB_PASSWORD"]);
                       ("filePath", VStr "build/secrets.json")] in
  let st := (packageSecrets h constructed_state).2 in
  (packageSecrets h constructed_state).1 = Err (ReferenceError "custom")
  ∧ secretsFile st = VStr "secret-baker-secrets.json"
  ∧ (cleanupPackageSecrets st).1 = Ok tt
  ∧ cli_log (cleanupPackageSecrets st).2
    = [ "Serverless Secrets beginning packaging process";
        "Cleaning up secret-baker-secrets.json" ].
Proof. vm_compute. repeat split. Qed.

(** ** The CLI parameter reader *)

Lemma ascii_eqb_true (a b : ascii) : ascii_eqb a b = true ↔ a = b.
Proof. unfold ascii_eqb. apply bool_decide_eq_true. Qed.

Lemma ascii_eqb_sym (a b : ascii) : ascii_eqb a b = ascii_eqb b a.
Proof. unfold ascii_eqb. apply bool_decide_ext. naive_solver. Qed.

Lemma split_first_eq_Some (s k v : string) :
  split_first_eq s = Some (k, v) →
  s = k +:+ String eq_sign v ∧ str_forall not_eq_sign k = true.
Proof.
  revert k. induction s as [| c s IH]; intros k; simpl; [done |].
  destruct (ascii_eqb c eq_sign) eqn:Hc.
  - intros [= <- <-]. apply ascii_eqb_true in Hc as ->. done.
  - destruct (split_first_eq s) as [[k' v'] |]; [| done].
    intros [= <- <-]. destruct (IH k' eq_refl) as [-> Hk'].
    simpl. unfold not_eq_sign at 1. by rewrite Hc, Hk'.
Qed.

Lemma split_first_eq_None (s : string) :
  str_mem eq_sign s = false → split_first_eq s = None.
Proof.
  induction s as [| c s IH]; simpl; [done |].
  rewrite (ascii_eqb_sym eq_sign c).
  destruct (ascii_eqb c eq_sign); simpl; [done |].
  intros H. by rewrite IH.
Qed.

Lemma str_length_app (a b : string) :
  String.length (a +:+ b) = String.length a + String.length b.
Proof. induction a as [| c a IH]; simpl; [done | by rewrite IH]. Qed.

Lemma str_app_nil_r (a : string) : a +:+ EmptyString = a.
Proof.
  induction a as [| c a IH]; [done |].
  change (String c (a +:+ EmptyString) = String c a). by rewrite IH.
Qed.

Lemma str_take_app (a b : string) : str_take (String.length a) (a +:+ b) = a.
Proof. induction a as [| c a IH]; simpl; [by destruct b | by rewrite IH]. Qed.

Lemma consumed_app (a b : string) : consumed (a +:+ b) b = a.
Proof.
  unfold consumed. rewrite str_length_app.
  replace (String.length a + String.length b - String.length b)
    with (String.length a) by lia.
  apply str_take_app.
Qed.

Lemma consumed_all (a : string) : consumed a EmptyString = a.
Proof.
  unfold consumed. simpl. rewrite Nat.sub_0_r.
  induction a as [| c a IH]; simpl; [done | by rewrite IH].
Qed.

(** A greedy repetition runs to the end of the longest run of the class; the
    match goes on from there when the continuation accepts that position. *)
Lemma plus_class_greedy {A : Type} (p : ascii → bool) (run rest : string)
    (k : string → option A) (r : A) :
  run ≠ EmptyString →
  str_forall p run = true →
  match rest with EmptyString => True | String c _ => p c = false end →
  k rest = Some r →
  plus_class p (run +:+ rest) k = Some r.
Proof.
  intros Hne Hrun Hrest Hk.
  induction run as [| c run IH]; [done |].
  simpl in *. apply andb_true_iff in Hrun as [Hc Hrun]. rewrite Hc.
  destruct run as [| c' run'].
  - simpl. destruct rest as [| d rest']; simpl; [done |]. by rewrite Hrest.
  - by rewrite IH.
Qed.

(** Without [=] in the text nothing matches. *)
Lemma plus_class_no_eq {A : Type} (p : ascii → bool) (s : string)
    (k : string → option A) :
  (∀ s', str_mem eq_sign s' = false → k s' = None) →
  str_mem eq_sign s = false →
  plus_class p s k = None.
Proof.
  intros Hk. induction s as [| c s IH]; simpl; [done |].
  intros H. apply orb_false_iff in H as [_ Hs].
  destruct (p c); [| done]. by rewrite IH, Hk.
Qed.

Lemma String_match_no_eq (s : string) :
  str_mem eq_sign s = false → String_match optionsParamsRegex s = None.
Proof.
  assert (Hone : ∀ s, str_mem eq_sign s = false →
            re_match optionsParamsRegex s [] (λ _ caps, Some caps) = None).
  { intros s0 Hs0. simpl. apply plus_class_no_eq; [| done].
    intros [| d s'] Hs'; [done |]. simpl in Hs'.
    apply orb_false_iff in Hs' as [Hd _]. by rewrite Hd. }
  induction s as [| c s IH]; intros Hs.
  - simpl. done.
  - cbn [String_match]. rewrite (Hone _ Hs).
    simpl in Hs. apply orb_false_iff in Hs as [_ Hs]. by apply IH.
Qed.

(** A piece that starts with a key, [=] and a run of characters that are no
    line terminators, up to the end of the piece or a line terminator, is
    matched at its start: the groups are that key and that run. *)
Lemma String_match_first_eq (k run rest : string) :
  k ≠ EmptyString → str_forall not_eq_sign k = true →
  run ≠ EmptyString → str_forall re_dot run = true →
  match rest with EmptyString => True | String c _ => re_dot c = false end →
  String_match optionsParamsRegex (k +:+ String eq_sign (run +:+ rest))
  = Some [("key", k); ("value", run)].
Proof.
  intros Hk Hkeq Hrun Hdot Hrest.
  assert (Hone : re_match optionsParamsRegex (k +:+ String eq_sign (run +:+ rest)) []
                   (λ _ caps, Some caps) = Some [("key", k); ("value", run)]).
  { simpl. apply plus_class_greedy; [done | done | |].
    - unfold not_eq_sign, ascii_eqb. by rewrite bool_decide_eq_true_2.
    - unfold ascii_eqb at 1. rewrite bool_decide_eq_true_2 by done.
      rewrite consumed_app.
      apply plus_class_greedy; [done | done | done |].
      by rewrite consumed_app. }
  destruct (k +:+ String eq_sign (run +:+ rest)); cbn [String_match]; by rewrite Hone.
Qed.

Lemma str_drop_while_split (p : ascii → bool) (s : string) :
  ∃ run, s = run +:+ str_drop_while p s
    ∧ str_forall p run = true
    ∧ match str_drop_while p s with
      | EmptyString => True
      | String c _ => p c = false
      end.
Proof.
  induction s as [| c s (run & Hs & Hrun & Hrest)].
  - by exists EmptyString.
  - cbn [str_drop_while]. destruct (p c) eqn:Hc.
    + exists (String c run). split; [| split; [| done]].
      * change (String c s = String c (run +:+ str_drop_while p s)). by rewrite <- Hs.
      * simpl. by rewrite Hc, Hrun.
    + by exists EmptyString.
Qed.

Lemma str_trimEnd_white_space (w : string) :
  str_forall is_white_space w = true → str_trimEnd w = EmptyString.
Proof.
  induction w as [| c w IH]; [done |]. cbn [str_forall str_trimEnd].
  intros H. apply andb_true_iff in H as [Hc Hw]. by rewrite IH, Hc.
Qed.

(** White space at the end of a text does not outlive [trimEnd]. *)
Lemma str_trimEnd_app_white_space (a w : string) :
  str_forall is_white_space w = true → str_trimEnd (a +:+ w) = str_trimEnd a.
Proof.
  intros Hw. induction a as [| c a IH].
  - by apply str_trimEnd_white_space.
  - change (str_trimEnd (String c (a +:+ w)) = str_trimEnd (String c a)).
    cbn [str_trimEnd]. by rewrite IH.
Qed.

(** A piece made of a non-empty key without [=], then [=], then a value
    that starts with a character other than a line terminator and holds
    nothing but white space from its first line terminator on: the reader
    assigns, under that key, the whole value without its trailing white
    space. *)
Lemma pair_entry_key_value (k v : string) (b : ascii) :
  k ≠ EmptyString → str_forall not_eq_sign k = true →
  re_dot b = true →
  str_forall is_white_space (str_drop_while re_dot v) = true →
  pair_entry (k +:+ String eq_sign (String b v))
  = Some (k, CliParam (str_trimEnd (String b v)) "cli").
Proof.
  intros Hk Hkeq Hb Hws.
  destruct (str_drop_while_split re_dot v) as (run & Hv & Hrun & Hrest).
  set (rest := str_drop_while re_dot v) in *.
  assert (Hm : String_match optionsParamsRegex (k +:+ String eq_sign (String b v))
               = Some [("key", k); ("value", String b run)]).
  { rewrite Hv. change (String b (run +:+ rest)) with (String b run +:+ rest).
    apply String_match_first_eq; try done. simpl. by rewrite Hb, Hrun. }
  unfold pair_entry. rewrite Hm. cbn [assoc]. rewrite !decide_True by done.
  rewrite decide_False by done. rewrite decide_True by done.
  do 3 f_equal.
  rewrite Hv. change (String b (run +:+ rest)) with (String b run +:+ rest).
  by rewrite str_trimEnd_app_white_space.
Qed.

(** On the pieces singled out above the reader does what the specification
    says: it splits at the first [=] and trims the value. *)
Lemma pair_entry_first_eq (s : string) :
  splits_at_first_eq s = true → pair_entry s = spec_pair s.
Proof.
  unfold splits_at_first_eq, spec_pair.
  destruct (split_first_eq s) as [[k v] |] eqn:E; [| done].
  destruct v as [| b v]; [done |].
  intros H. apply andb_true_iff in H as [H Hws]. apply andb_true_iff in H as [Hk Hb].
  destruct (split_first_eq_Some s k _ E) as [-> Hkeq].
  apply pair_entry_key_value; try done. by destruct k.
Qed.

Lemma readParams_pair_entry (acc : obj cli_param) (s : string) :
  readParams_pair acc s
  = match pair_entry s with
    | Some (k, p) => Ok (obj_set k p acc)
    | None => Err TypeError
    end.
Proof.
  unfold readParams_pair, pair_entry.
  destruct (String_match optionsParamsRegex s) as [groups |]; [| done].
  by destruct (assoc "key" groups), (assoc "value" groups).
Qed.

Lemma readParams_pair_error (acc : obj cli_param) (s : string) (e : error) :
  readParams_pair acc s = Err e → e = TypeError.
Proof.
  unfold readParams_pair.
  destruct (String_match optionsParamsRegex s) as [groups |]; [| by intros [= <-]].
  destruct (assoc "key" groups), (assoc "value" groups); try done; by intros [= <-].
Qed.

Lemma readParams_pairs_app (acc : obj cli_param) (l1 l2 : list string) :
  readParams_pairs acc (l1 ++ l2)
  = match readParams_pairs acc l1 with
    | Ok acc' => readParams_pairs acc' l2
    | Err e => Err e
    end.
Proof.
  revert acc. induction l1 as [| s l1 IH]; intros acc; simpl; [done |].
  destruct (readParams_pair acc s); [apply IH | done].
Qed.

(** The two loops of lines 47-48 visit the pairs of all raw parameters in
    order. *)
Lemma readParams_flatten (acc : obj cli_param) (params : list string) :
  readParams_items acc params
  = readParams_pairs acc (concat (map (str_split ",") params)).
Proof.
  revert acc. induction params as [| item params IH]; intros acc; simpl; [done |].
  rewrite readParams_pairs_app.
  destruct (readParams_pairs acc (str_split "," item)); [apply IH | done].
Qed.

(** The reader returns a table exactly when every piece is matched; the
    table is then built by one assignment per piece, in order. *)
Lemma readParams_pairs_fold (acc : obj cli_param) (pairs : list string) :
  match readParams_pairs acc pairs with
  | Ok result =>
      result = fold_left assign_pair pairs acc
      ∧ Forall (λ s, is_Some (pair_entry s)) pairs
  | Err _ => Exists (λ s, pair_entry s = None) pairs
  end.
Proof.
  revert acc. induction pairs as [| s pairs IH]; intros acc; simpl.
  - split; [done | constructor].
  - rewrite readParams_pair_entry. unfold assign_pair at 2.
    destruct (pair_entry s) as [[k p] |] eqn:E.
    + specialize (IH (obj_set k p acc)).
      destruct (readParams_pairs (obj_set k p acc) pairs) as [result | e].
      * destruct IH as [-> Hall]. split; [done |]. constructor; [by rewrite E | done].
      * by apply Exists_cons_tl.
    + by apply Exists_cons_hd.
Qed.

Lemma readParams_pairs_malformed (acc : obj cli_param) (pairs : list string) :
  Exists (λ s, str_mem eq_sign s = false) pairs →
  readParams_pairs acc pairs = Err TypeError.
Proof.
  intros Hex. revert acc. induction Hex as [s pairs Hs | s pairs _ IH]; intros acc; simpl.
  - unfold readParams_pair. by rewrite String_match_no_eq.
  - destruct (readParams_pair acc s) as [acc' | e] eqn:E; [apply IH |].
    by rewrite (readParams_pair_error acc s e E).
Qed.

(** Reading a property back after an assignment. *)
Lemma assoc_obj_replace_eq {A : Type} (k : string) (v : A) (o : obj A) :
  is_Some (assoc k o) → assoc k (obj_replace k v o) = Some v.
Proof.
  induction o as [| [k' v'] o IH]; simpl; [by intros [? [=]] |].
  destruct (decide (k' = k)) as [-> | Hne]; simpl.
  - by rewrite decide_True.
  - rewrite decide_False by done. apply IH.
Qed.

Lemma assoc_obj_replace_ne {A : Type} (k k' : string) (v : A) (o : obj A) :
  k' ≠ k → assoc k' (obj_replace k v o) = assoc k' o.
Proof.
  intros Hne. induction o as [| [k0 v0] o IH]; simpl; [done |].
  destruct (decide (k0 = k)) as [-> | Hk0]; simpl.
  - by rewrite !decide_False by done.
  - by rewrite IH.
Qed.

Lemma assoc_obj_insert_index_eq {A : Type} (n : N) (k : string) (v : A) (o : obj A) :
  assoc k o = None → assoc k (obj_insert_index n k v o) = Some v.
Proof.
  induction o as [| [k' v'] o IH]; simpl; [by rewrite decide_True |].
  destruct (decide (k' = k)) as [-> | Hne]; [done |]. intros Hnone.
  destruct (array_index k') as [m |]; [destruct (n <? m)%N |]; simpl;
    rewrite ?decide_True by done; try done.
  rewrite decide_False by done. by apply IH.
Qed.

Lemma assoc_obj_insert_index_ne {A : Type} (n : N) (k k' : string) (v : A) (o : obj A) :
  k' ≠ k → assoc k' (obj_insert_index n k v o) = assoc k' o.
Proof.
  intros Hne. induction o as [| [k0 v0] o IH]; simpl.
  - by rewrite decide_False.
  - destruct (array_index k0) as [m |]; [destruct (n <? m)%N |]; simpl;
      rewrite ?(decide_False (P := k = k')) by done; try done.
    by rewrite IH.
Qed.

Lemma assoc_app_last {A : Type} (k k' : string) (v : A) (o : obj A) :
  assoc k' (o ++ [(k, v)])
  = match assoc k' o with
    | Some x => Some x
    | None => if decide (k = k') then Some v else None
    end.
Proof.
  induction o as [| [k0 v0] o IH]; simpl; [done |].
  by destruct (decide (k0 = k')).
Qed.

Lemma assoc_obj_set_eq {A : Type} (k : string) (v : A) (o : obj A) :
  k ≠ "__proto__" → assoc k (obj_set k v o) = Some v.
Proof.
  intros Hk. unfold obj_set. rewrite decide_False by done.
  destruct (assoc k o) eqn:E.
  - apply assoc_obj_replace_eq. by rewrite E.
  - destruct (array_index k).
    + by apply assoc_obj_insert_index_eq.
    + by rewrite assoc_app_last, E, decide_True.
Qed.

Lemma assoc_obj_set_ne {A : Type} (k k' : string) (v : A) (o : obj A) :
  k' ≠ k → assoc k' (obj_set k v o) = assoc k' o.
Proof.
  intros Hne. unfold obj_set. destruct (decide (k = "__proto__")); [done |].
  destruct (assoc k o).
  - by apply assoc_obj_replace_ne.
  - destruct (array_index k).
    + by apply assoc_obj_insert_index_ne.
    + rewrite assoc_app_last. destruct (assoc k' o); [done |].
      by rewrite decide_False.
Qed.

Lemma obj_set_Forall {A : Type} (Q : string * A → Prop) (k : string) (v : A)
    (o : obj A) :
  Q (k, v) → Forall Q o → Forall Q (obj_set k v o).
Proof.
  intros Hkv Ho. unfold obj_set.
  destruct (decide (k = "__proto__")) as [| Hproto]; [done |].
  destruct (assoc k o).
  - induction Ho as [| [k' v'] o Hx Ho IH]; simpl; [constructor |].
    destruct (decide (k' = k)); by constructor.
  - destruct (array_index k) as [n |].
    + induction Ho as [| [k' v'] o Hx Ho IH]; simpl; [by repeat constructor |].
      destruct (array_index k') as [m |]; [destruct (n <? m)%N |];
        repeat (constructor; try done).
    + apply Forall_app. by repeat constructor.
Qed.

(** Every parsed entry has the type [cli]. *)
Lemma readParams_pairs_cli (acc result : obj cli_param) (pairs : list string) :
  Forall (λ kv, cli_type kv.2 = "cli") acc →
  readParams_pairs acc pairs = Ok result →
  Forall (λ kv, cli_type kv.2 = "cli") result.
Proof.
  revert acc. induction pairs as [| s pairs IH]; intros acc Hacc; simpl.
  - by intros [= <-].
  - unfold readParams_pair at 1.
    destruct (String_match optionsParamsRegex s) as [groups |]; [| done].
    destruct (assoc "key" groups) as [key |], (assoc "value" groups) as [value |];
      try done.
    apply IH. by apply obj_set_Forall.
Qed.

Lemma fold_assign_pair_keeps (l : list string) (acc : obj cli_param) (k : string) :
  Forall (λ s, fst <$> pair_entry s ≠ Some k) l →
  assoc k (fold_left assign_pair l acc) = assoc k acc.
Proof.
  intros Hl. revert acc. induction Hl as [| s l Hs _ IH]; intros acc; simpl; [done |].
  rewrite IH. unfold assign_pair.
  destruct (pair_entry s) as [[k' p'] |]; [| done].
  apply assoc_obj_set_ne. intros ->. by destruct Hs.
Qed.

(** C9, amended: the pieces of all raw parameters, split at the commas, are
    read in order.  A piece without [=] makes the reader throw.  A piece with
    a non-empty key before its first [=], after it a character that is no
    line terminator, and nothing but white space from the first line
    terminator of the value on, is read as the specification says: the key
    is the text before the first [=], the value the text after it without
    its trailing white space.  When the reader returns, its table is the
    result of one assignment per piece, in order; every entry has the type
    [cli]; and a key other than [__proto__] reads as the last piece that
    assigns it. *)
Theorem readParams_parsing (params : list string) :
  let pairs := concat (map (str_split ",") params) in
  (Exists (λ s, str_mem eq_sign s = false) pairs → readParams params = Err TypeError)
  ∧ (∀ s, splits_at_first_eq s = true → pair_entry s = spec_pair s)
  ∧ (∀ k v b,
       k ≠ EmptyString → str_forall not_eq_sign k = true →
       re_dot b = true →
       str_forall is_white_space (str_drop_while re_dot v) = true →
       pair_entry (k +:+ String eq_sign (String b v))
       = Some (k, CliParam (str_trimEnd (String b v)) "cli"))
  ∧ (Forall (λ s, is_Some (pair_entry s)) pairs →
       readParams params = Ok (fold_left assign_pair pairs []))
  ∧ (∀ result, readParams params = Ok result →
       result = fold_left assign_pair pairs []
       ∧ Forall (λ s, is_Some (pair_entry s)) pairs
       ∧ Forall (λ kv, cli_type kv.2 = "cli") result
       ∧ ∀ before s after k p,
           pairs = before ++ s :: after →
           pair_entry s = Some (k, p) →
           k ≠ "__proto__" →
           Forall (λ s', fst <$> pair_entry s' ≠ Some k) after →
           assoc k result = Some p).
Proof.
  intros pairs. unfold readParams. rewrite readParams_flatten. fold pairs.
  split; [apply readParams_pairs_malformed |].
  split; [apply pair_entry_first_eq |].
  split; [apply pair_entry_key_value |].
  pose proof (readParams_pairs_fold [] pairs) as Hfold.
  split.
  - intros Hall. destruct (readParams_pairs [] pairs) as [result | e].
    + by destruct Hfold as [-> _].
    + apply Exists_exists in Hfold as (s & Hin & Hnone).
      rewrite Forall_forall in Hall. specialize (Hall s Hin).
      rewrite Hnone in Hall. by destruct Hall.
  - intros result Hrun. rewrite Hrun in Hfold. destruct Hfold as [Hres Hall].
    split; [exact Hres |]. split; [exact Hall |]. split.
    + by apply (readParams_pairs_cli [] result pairs).
    + intros before s after k p Hpairs Hs Hk Hafter.
      rewrite Hres, Hpairs, fold_left_app. simpl.
      rewrite fold_assign_pair_keeps by done.
      unfold assign_pair at 1. rewrite Hs.
      by apply assoc_obj_set_eq.
Qed.

(** A piece that is read as the specification says next to one that is
    not, and a key that is assigned twice. *)
Lemma readParams_parsing_witness :
  splits_at_first_eq "=a=1" = false
  ∧ splits_at_first_eq "b=2 " = true
  ∧ pair_entry "b=2 " = Some ("b", CliParam "2" "cli")
  ∧ readParams ["=a=1,b=2 "; "b=3=4"]
    = Ok [("a", CliParam "1" "cli"); ("b", CliParam "3=4" "cli")].
Proof.
  split; [reflexivity |]. split; [reflexivity |].
  destruct (readParams_parsing ["=a=1,b=2 "; "b=3=4"]) as (_ & Hsplit & _ & Hrun & _).
  split; [exact (Hsplit "b=2 " eq_refl) |].
  apply Hrun. repeat constructor; by eexists.
Defined.

(** The example of the specification. *)
Example readParams_example :
  readParams ["a=1,b=2"; "c=3"]
  = Ok [("a", CliParam "1" "cli"); ("b", CliParam "2" "cli"); ("c", CliParam "3" "cli")].
Proof. reflexivity. Qed.

(** C9 as stated fails.  A piece that starts with [=] is not split at its
    first [=].  A piece that ends with its first [=], or in which a line
    terminator follows the first [=], makes the reader throw though it holds
    a [=].  A value is cut at its first line terminator, so what follows it
    is lost unless it is white space.  And the key [__proto__] leaves no
    entry in the table. *)
Lemma readParams_first_eq_counterexample :
  (spec_pair "=a=1" = Some (EmptyString, CliParam "a=1" "cli")
   ∧ readParams ["=a=1"] = Ok [("a", CliParam "1" "cli")])
  ∧ (spec_pair "a=" = Some ("a", CliParam EmptyString "cli")
     ∧ readParams ["a="] = Err TypeError)
  ∧ (spec_pair ("a=" +:+ line_feed) = Some ("a", CliParam EmptyString "cli")
     ∧ readParams ["a=" +:+ line_feed] = Err TypeError)
  ∧ (spec_pair ("a=1" +:+ line_feed +:+ "2")
     = Some ("a", CliParam ("1" +:+ line_feed +:+ "2") "cli")
     ∧ readParams ["a=1" +:+ line_feed +:+ "2"] = Ok [("a", CliParam "1" "cli")])
  ∧ (spec_pair "__proto__=x" = Some ("__proto__", CliParam "x" "cli")
     ∧ readParams ["__proto__=x"] = Ok []).
Proof. vm_compute. repeat split. Qed.

(** A line terminator after the value, followed by white space only, is
    trimmed away by both readings. *)
Example readParams_trailing_line :
  splits_at_first_eq ("a=1 " +:+ line_feed) = true
  ∧ readParams ["a=1 " +:+ line_feed] = Ok [("a", CliParam "1" "cli")]
  ∧ spec_pair ("a=1 " +:+ line_feed) = Some ("a", CliParam "1" "cli").
Proof. vm_compute. repeat split. Qed.

(** ** The string primitives *)

Lemma str_split_nonempty (sep : ascii) (s : string) : str_split sep s ≠ [].
Proof.
  destruct s as [| c s]; cbn [str_split]; [done |].
  destruct (ascii_eqb c sep); [done |]. by destruct (str_split sep s).
Qed.

(** X16: splitting loses nothing: the pieces of a text, joined again with
    the separator, are the text. *)
Lemma str_split_join (sep : ascii) (s : string) :
  str_join (str1 sep) (str_split sep s) = s.
Proof.
  induction s as [| c s IH]; [done |].
  pose proof (str_split_nonempty sep s) as Hne.
  cbn [str_split]. destruct (ascii_eqb c sep) eqn:Hc.
  - apply ascii_eqb_true in Hc as ->.
    destruct (str_split sep s) as [| x l]; [done |].
    cbn [str_join]. cbn [str_join] in IH. by rewrite IH.
  - destruct (str_split sep s) as [| x l]; [done |].
    destruct l as [| y l]; cbn [str_join] in *; by rewrite <- IH.
Qed.

Lemma str_split_pieces (sep : ascii) (s : string) :
  Forall (λ x, str_mem sep x = false) (str_split sep s).
Proof.
  induction s as [| c s IH]; cbn [str_split]; [by repeat constructor |].
  destruct (ascii_eqb c sep) eqn:Hc; [by constructor |].
  destruct (str_split sep s) as [| x l]; simpl.
  - repeat constructor. simpl. rewrite ascii_eqb_sym, Hc. done.
  - inversion IH as [| ? ? Hx Hl]; subst. constructor; [| done].
    simpl. by rewrite ascii_eqb_sym, Hc, Hx.
Qed.

(** X17: [trimEnd] removes a suffix of white space, and all of it: what is
    left is empty or ends with a character that is no white space. *)
Lemma str_trimEnd_spec (s : string) :
  ∃ w, s = str_trimEnd s +:+ w ∧ str_forall is_white_space w = true
    ∧ (str_trimEnd s = EmptyString
       ∨ ∃ t c, str_trimEnd s = t +:+ str1 c ∧ is_white_space c = false).
Proof.
  induction s as [| c s (w & Hs & Hw & Hlast)].
  - exists EmptyString. repeat split. by left.
  - cbn [str_trimEnd].
    destruct (str_is_empty (str_trimEnd s)) eqn:He; simpl.
    + destruct (str_trimEnd s) eqn:Ht; [| done]. change (s = w) in Hs. subst w.
      destruct (is_white_space c) eqn:Hc.
      * exists (String c s). simpl. rewrite Hc, Hw. repeat split. by left.
      * exists s. repeat split; [done |]. right. by exists EmptyString, c.
    + exists w. split; [by rewrite Hs at 1 |]. split; [done |]. right.
      destruct Hlast as [Hnil | (t & d & Ht & Hd)]; [by rewrite Hnil in He |].
      exists (String c t), d. by rewrite Ht.
Qed.

(** * Further properties of the code *)

(** ** What the regular expression accepts *)

Lemma plus_class_sound {A : Type} (p : ascii → bool) (s : string)
    (k : string → option A) (r : A) :
  plus_class p s k = Some r →
  ∃ run rest, s = run +:+ rest ∧ run ≠ EmptyString
    ∧ str_forall p run = true ∧ k rest = Some r.
Proof.
  induction s as [| c s IH]; simpl; [done |].
  destruct (p c) eqn:Hc; [| done].
  destruct (plus_class p s k) as [r' |] eqn:E.
  - intros [= <-]. destruct (IH eq_refl) as (run & rest & -> & _ & Hrun & Hk).
    exists (String c run), rest. simpl. by rewrite Hc, Hrun.
  - intros Hk. exists (str1 c), s. simpl. by rewrite Hc.
Qed.

(** With a continuation that accepts every position, the repetition stops
    at the end of the text or at the first character outside the class. *)
Lemma plus_class_longest {A : Type} (p : ascii → bool) (s : string)
    (f : string → A) (r : A) :
  plus_class p s (λ s', Some (f s')) = Some r →
  ∃ run rest, s = run +:+ rest ∧ run ≠ EmptyString
    ∧ str_forall p run = true ∧ r = f rest
    ∧ match rest with EmptyString => True | String c _ => p c = false end.
Proof.
  revert r. induction s as [| c s IH]; intros r; simpl; [done |].
  destruct (p c) eqn:Hc; [| done].
  destruct (plus_class p s (λ s', Some (f s'))) as [r' |] eqn:E.
  - intros [= <-]. destruct (IH r' eq_refl) as (run & rest & -> & _ & Hrun & Hr & Hrest).
    exists (String c run), rest. simpl. by rewrite Hc, Hrun.
  - intros [= <-]. exists (str1 c), s. simpl. rewrite Hc.
    repeat split; try done.
    destruct s as [| d s']; [done |]. simpl in E.
    destruct (p d); [| done]. by destruct (plus_class p s' _).
Qed.

Lemma str_app_assoc (a b c : string) : (a +:+ b) +:+ c = a +:+ (b +:+ c).
Proof.
  induction a as [| x a IH]; [done |].
  change (String x ((a +:+ b) +:+ c) = String x (a +:+ (b +:+ c))). by rewrite IH.
Qed.

(** The groups of a match: the text is some prefix, a key, [=], a value and
    a rest; the key is not empty and has no [=]; the value is not empty, has
    no line terminator, and ends where the text or the line ends. *)
Lemma String_match_groups (s : string) (groups : captures) :
  String_match optionsParamsRegex s = Some groups →
  ∃ pre k v post,
    s = pre +:+ k +:+ String eq_sign (v +:+ post)
    ∧ groups = [("key", k); ("value", v)]
    ∧ k ≠ EmptyString ∧ str_forall not_eq_sign k = true
    ∧ v ≠ EmptyString ∧ str_forall re_dot v = true
    ∧ match post with
      | EmptyString => True
      | String c _ => is_line_terminator c = true
      end.
Proof.
  assert (Hone : ∀ s groups,
            re_match optionsParamsRegex s [] (λ _ caps, Some caps) = Some groups →
            ∃ k v post,
              s = k +:+ String eq_sign (v +:+ post)
              ∧ groups = [("key", k); ("value", v)]
              ∧ k ≠ EmptyString ∧ str_forall not_eq_sign k = true
              ∧ v ≠ EmptyString ∧ str_forall re_dot v = true
              ∧ match post with
                | EmptyString => True
                | String c _ => is_line_terminator c = true
                end).
  { clear. intros s groups Hm. simpl in Hm.
    apply plus_class_sound in Hm as (k & rest & -> & Hk & Hkeq & Hrest).
    destruct rest as [| d rest]; [done |].
    destruct (ascii_eqb eq_sign d) eqn:Hd; [| done].
    apply ascii_eqb_true in Hd as <-.
    apply plus_class_longest in Hrest as (v & post & -> & Hv & Hvdot & -> & Hpost).
    exists k, v, post. rewrite consumed_app, consumed_app.
    repeat split; try done.
    destruct post as [| c post]; [done |]. unfold re_dot in Hpost.
    by apply negb_false_iff in Hpost. }
  revert groups. induction s as [| c s IH]; intros groups; cbn [String_match].
  - destruct (re_match optionsParamsRegex EmptyString [] _) eqn:E; [| done].
    intros [= <-]. destruct (Hone _ _ E) as (k & v & post & Hs & Hrest).
    by exists EmptyString, k, v, post.
  - destruct (re_match optionsParamsRegex (String c s) [] _) eqn:E.
    + intros [= <-]. destruct (Hone _ _ E) as (k & v & post & Hs & Hrest).
      by exists EmptyString, k, v, post.
    + intros Hm. destruct (IH _ Hm) as (pre & k & v & post & -> & Hrest).
      by exists (String c pre), k, v, post.
Qed.

(** X1: a pair the reader accepts has the form prefix, key, [=], value,
    rest, where the key is not empty and holds no [=], the value is not
    empty and holds no line terminator, and the rest is empty or starts with
    a line terminator; the reader assigns, under that key, that value
    without its trailing white space, with the type [cli]. *)
Theorem readParams_pair_accepts (acc acc' : obj cli_param) (s : string) :
  readParams_pair acc s = Ok acc' →
  ∃ pre k v post,
    s = pre +:+ k +:+ String eq_sign (v +:+ post)
    ∧ acc' = obj_set k (CliParam (str_trimEnd v) "cli") acc
    ∧ k ≠ EmptyString ∧ str_forall not_eq_sign k = true
    ∧ v ≠ EmptyString ∧ str_forall re_dot v = true
    ∧ match post with
      | EmptyString => True
      | String c _ => is_line_terminator c = true
      end.
Proof.
  unfold readParams_pair.
  destruct (String_match optionsParamsRegex s) as [groups |] eqn:E; [| done].
  apply String_match_groups in E as (pre & k & v & post & Hs & -> & Hrest).
  simpl. intros [= <-]. by exists pre, k, v, post.
Qed.

Lemma readParams_pair_accepts_witness :
  readParams_pair [] ("x=y=a=1 " +:+ line_feed +:+ "b")
  = Ok [("x", CliParam "y=a=1" "cli")]
  ∧ ∃ pre k v post,
      "x=y=a=1 " +:+ line_feed +:+ "b" = pre +:+ k +:+ String eq_sign (v +:+ post)
      ∧ [("x", CliParam "y=a=1" "cli")] = obj_set k (CliParam (str_trimEnd v) "cli") []
      ∧ v ≠ EmptyString.
Proof.
  split; [reflexivity |].
  destruct (readParams_pair_accepts [] [("x", CliParam "y=a=1" "cli")]
              ("x=y=a=1 " +:+ line_feed +:+ "b") eq_refl)
    as (pre & k & v & post & Hs & Hacc & _ & _ & Hv & _).
  by exists pre, k, v, post.
Defined.

(** ** When the reader throws *)

Lemma plus_class_cons {A : Type} (p : ascii → bool) (c : ascii) (s : string)
    (k : string → option A) :
  plus_class p (String c s) k
  = if p c then
      match plus_class p s k with
      | Some r => Some r
      | None => k s
      end
    else None.
Proof. reflexivity. Qed.

Lemma plus_class_accepts {A : Type} (p : ascii → bool) (c : ascii) (s : string)
    (k : string → option A) :
  p c = true → (∀ s', k s' ≠ None) → plus_class p (String c s) k ≠ None.
Proof.
  intros Hc Hk. simpl. rewrite Hc.
  destruct (plus_class p s k); [done | apply Hk].
Qed.

Lemma String_match_cons (c : ascii) (s : string) :
  String_match optionsParamsRegex s ≠ None →
  String_match optionsParamsRegex (String c s) ≠ None.
Proof.
  intros Hs. cbn [String_match].
  by destruct (re_match optionsParamsRegex (String c s) [] _).
Qed.

Lemma String_match_acceptable (s : string) :
  String_match optionsParamsRegex s ≠ None ↔ acceptable s = true.
Proof.
  split.
  - destruct (String_match optionsParamsRegex s) as [groups |] eqn:E; [| done].
    intros _.
    apply String_match_groups in E
      as (pre & k & v & post & -> & _ & Hk & Hkeq & Hv & Hvdot & _).
    induction pre as [| c pre IH].
    + change (acceptable (k +:+ String eq_sign (v +:+ post)) = true).
      induction k as [| a k IHk]; [done |].
      change (acceptable (String a (k +:+ String eq_sign (v +:+ post))) = true).
      simpl in Hkeq. apply andb_true_iff in Hkeq as [Ha Hkeq].
      destruct k as [| a' k'].
      * destruct v as [| b v]; [done |]. simpl in Hvdot.
        apply andb_true_iff in Hvdot as [Hb _].
        change (acceptable (String a (String eq_sign (String b (v +:+ post)))) = true).
        cbn [acceptable]. rewrite Ha, Hb. unfold ascii_eqb.
        by rewrite bool_decide_eq_true_2.
      * cbn [acceptable]. rewrite IHk by done. apply orb_true_r.
    + change (acceptable (String c (pre +:+ k +:+ String eq_sign (v +:+ post))) = true).
      cbn [acceptable]. rewrite IH. apply orb_true_r.
  - induction s as [| a s IH]; [done |]. cbn [acceptable].
    intros H. apply orb_true_iff in H as [H | H]; [| by apply String_match_cons, IH].
    destruct s as [| e [| b post]]; try done.
    apply andb_true_iff in H as [H Hb]. apply andb_true_iff in H as [Ha He].
    apply ascii_eqb_true in He as ->.
    cbn [String_match].
    assert (Hone : re_match optionsParamsRegex
                     (String a (String eq_sign (String b post))) []
                     (λ _ caps, Some caps) ≠ None).
    { cbn [re_match optionsParamsRegex].
      rewrite plus_class_cons, Ha, plus_class_cons.
      replace (not_eq_sign eq_sign) with false by done.
      replace (ascii_eqb eq_sign eq_sign) with true by done.
      apply plus_class_accepts; [exact Hb | by intros s']. }
    by destruct (re_match optionsParamsRegex _ [] _).
Qed.

Lemma readParams_pair_Ok (acc : obj cli_param) (s : string) :
  (∃ acc', readParams_pair acc s = Ok acc') ↔ acceptable s = true.
Proof.
  rewrite <- String_match_acceptable. unfold readParams_pair.
  destruct (String_match optionsParamsRegex s) as [groups |] eqn:E.
  - apply String_match_groups in E as (pre & k & v & post & _ & -> & _).
    simpl. split; [done | eauto].
  - split; [by intros [? [=]] | done].
Qed.

Lemma readParams_pairs_Err (acc : obj cli_param) (pairs : list string) (e : error) :
  readParams_pairs acc pairs = Err e ↔
  e = TypeError ∧ Exists (λ s, acceptable s = false) pairs.
Proof.
  revert acc. induction pairs as [| s pairs IH]; intros acc; simpl.
  - split; [done | intros [_ H]; inversion H].
  - rewrite Exists_cons.
    destruct (readParams_pair acc s) as [acc' | e'] eqn:E.
    + assert (Hs : acceptable s = true) by (apply (readParams_pair_Ok acc s); eauto).
      rewrite IH. split; [intros [-> Hex]; eauto |].
      intros [-> [Hbad | Hex]]; [congruence | done].
    + pose proof (readParams_pair_error acc s e' E) as ->.
      assert (Hs : acceptable s = false).
      { destruct (acceptable s) eqn:Hacc; [| done].
        apply (readParams_pair_Ok acc s) in Hacc as [acc' Hok]. congruence. }
      split; [intros [= <-]; eauto | by intros [-> _]].
Qed.

(** X2: the reader throws exactly when some comma-separated piece of some
    raw parameter holds no character other than [=] that is followed by [=]
    and then by a character that is no line terminator; what it throws is
    always a [TypeError]. *)
Theorem readParams_throws (params : list string) :
  let pairs := concat (map (str_split ",") params) in
  (∀ e, readParams params = Err e → e = TypeError)
  ∧ (readParams params = Err TypeError ↔ Exists (λ s, acceptable s = false) pairs).
Proof.
  intros pairs. unfold readParams. rewrite readParams_flatten. fold pairs.
  split.
  - intros e He. by apply readParams_pairs_Err in He as [-> _].
  - rewrite readParams_pairs_Err. split; [by intros [_ ?] | done].
Qed.

Example readParams_throws_examples :
  readParams ["a=1,"] = Err TypeError
  ∧ readParams ["a=1"; EmptyString] = Err TypeError
  ∧ readParams ["a=1,=b"] = Err TypeError
  ∧ readParams ["a=,b=1"] = Err TypeError
  ∧ readParams ["a==,b=1"] = Ok [("a", CliParam "=" "cli"); ("b", CliParam "1" "cli")].
Proof. repeat split. Qed.

(** ** The table of parameters *)

Lemma str_mem_app (c : ascii) (a b : string) :
  str_mem c (a +:+ b) = str_mem c a || str_mem c b.
Proof.
  induction a as [| x a IH]; [done |].
  change (str_mem c (String x (a +:+ b)) = str_mem c (String x a) || str_mem c b).
  simpl. by rewrite IH, orb_assoc.
Qed.

Lemma str_forall_not_eq_sign (k : string) :
  str_forall not_eq_sign k = true → str_mem eq_sign k = false.
Proof.
  induction k as [| c k IH]; simpl; [done |].
  intros H. apply andb_true_iff in H as [Hc Hk].
  unfold not_eq_sign in Hc. apply negb_true_iff in Hc.
  by rewrite (ascii_eqb_sym eq_sign c), Hc, IH.
Qed.

Lemma str_trimEnd_idemp (s : string) : str_trimEnd (str_trimEnd s) = str_trimEnd s.
Proof.
  induction s as [| c s IH]; [done |]. cbn [str_trimEnd].
  destruct (str_is_empty (str_trimEnd s) && is_white_space c) eqn:E; [done |].
  cbn [str_trimEnd]. by rewrite IH, E.
Qed.

Lemma str_trimEnd_forall (p : ascii → bool) (s : string) :
  str_forall p s = true → str_forall p (str_trimEnd s) = true.
Proof.
  induction s as [| c s IH]; [done |]. cbn [str_trimEnd str_forall].
  intros H. apply andb_true_iff in H as [Hc Hs].
  destruct (str_is_empty (str_trimEnd s) && is_white_space c); [done |].
  cbn [str_forall]. by rewrite Hc, IH.
Qed.

Lemma obj_replace_keys {A : Type} (k : string) (v : A) (o : obj A) :
  (obj_replace k v o).*1 = o.*1.
Proof.
  induction o as [| [k' v'] o IH]; [done |]. cbn [obj_replace].
  destruct (decide (k' = k)) as [-> | Hne]; [done |].
  by rewrite !fmap_cons, IH.
Qed.

Lemma obj_set_keys {A : Type} (k : string) (v : A) (o : obj A) :
  (obj_set k v o).*1 = o.*1
  ∨ (k ≠ "__proto__" ∧ (k ∉ o.*1) ∧ (obj_set k v o).*1 ≡ₚ o.*1 ++ [k]).
Proof.
  destruct (decide (k = "__proto__")) as [-> | Hk]; [by left |].
  destruct (assoc k o) as [x |] eqn:E.
  - left. unfold obj_set. rewrite decide_False, E by done. apply obj_replace_keys.
  - right. apply assoc_None in E. split; [done |]. split; [done |].
    by rewrite (obj_set_fresh k v o Hk E), fmap_app.
Qed.

Lemma obj_set_NoDup {A : Type} (k : string) (v : A) (o : obj A) :
  NoDup o.*1 → NoDup (obj_set k v o).*1.
Proof.
  intros Hnd. destruct (obj_set_keys k v o) as [-> | (_ & Hfresh & ->)]; [done |].
  apply NoDup_app. split; [done |]. split; [| apply NoDup_singleton].
  intros x Hx Hk. apply list_elem_of_singleton in Hk as ->. done.
Qed.

(** A property of the entries is kept by an assignment when the assigned
    pair has it, unless the key is [__proto__], which is not stored. *)
Lemma obj_set_Forall_stored {A : Type} (Q : string * A → Prop) (k : string)
    (v : A) (o : obj A) :
  (k ≠ "__proto__" → Q (k, v)) → Forall Q o → Forall Q (obj_set k v o).
Proof.
  intros Hkv Ho. destruct (decide (k = "__proto__")) as [-> | Hk]; [done |].
  by apply obj_set_Forall; [apply Hkv |].
Qed.

Lemma readParams_pairs_invariant (acc result : obj cli_param) (pairs : list string) :
  Forall (λ s, str_mem "," s = false) pairs →
  NoDup acc.*1 → Forall cli_entry_ok acc →
  readParams_pairs acc pairs = Ok result →
  NoDup result.*1 ∧ Forall cli_entry_ok result.
Proof.
  intros Hpairs. revert acc.
  induction Hpairs as [| s pairs Hs _ IH]; intros acc Hnd Hacc; simpl.
  - by intros [= <-].
  - unfold readParams_pair at 1.
    destruct (String_match optionsParamsRegex s) as [groups |] eqn:E; [| done].
    apply String_match_groups in E
      as (pre & k & v & post & -> & -> & Hk & Hkeq & Hv & Hvdot & _).
    simpl. apply IH.
    + by apply obj_set_NoDup.
    + apply obj_set_Forall_stored; [| done]. intros Hproto.
      rewrite !str_mem_app in Hs.
      apply orb_false_iff in Hs as [_ Hs]. apply orb_false_iff in Hs as [Hcomma _].
      repeat split; simpl; try done.
      * by apply str_forall_not_eq_sign.
      * apply str_trimEnd_idemp.
      * by apply str_trimEnd_forall.
Qed.

(** X3: in every table the reader returns, no key occurs twice, every key
    is non-empty, holds neither [=] nor a comma and is not [__proto__], and
    every entry has the type [cli] and a value without trailing white space
    and without line terminator. *)
Theorem readParams_table (params : list string) (result : obj cli_param) :
  readParams params = Ok result →
  NoDup result.*1 ∧ Forall cli_entry_ok result.
Proof.
  unfold readParams. rewrite readParams_flatten.
  apply readParams_pairs_invariant; [| constructor | constructor].
  apply Forall_concat, Forall_forall. intros l Hl.
  apply list_elem_of_fmap in Hl as (item & -> & _). apply str_split_pieces.
Qed.

Lemma readParams_table_witness :
  readParams ["stage=dev ,__proto__=x"; "region=eu=1"]
  = Ok [("stage", CliParam "dev" "cli"); ("region", CliParam "eu=1" "cli")]
  ∧ NoDup ["stage"; "region"]
  ∧ Forall cli_entry_ok
      [("stage", CliParam "dev" "cli"); ("region", CliParam "eu=1" "cli")].
Proof.
  split; [reflexivity |].
  exact (readParams_table ["stage=dev ,__proto__=x"; "region=eu=1"]
           [("stage", CliParam "dev" "cli"); ("region", CliParam "eu=1" "cli")]
           eq_refl).
Defined.


(** ** Construction *)

(** A piece that starts with a key, [=] and a character that is no line
    terminator is matched at its start: the key group is that key. *)
Lemma String_match_key (k rest : string) (b : ascii) :
  k ≠ EmptyString → str_forall not_eq_sign k = true → re_dot b = true →
  ∃ value, String_match optionsParamsRegex (k +:+ String eq_sign (String b rest))
           = Some [("key", k); ("value", value)].
Proof.
  intros Hk Hkeq Hb.
  assert (Hvalue : ∃ value,
            plus_class re_dot (String b rest)
              (λ s3, Some ([("key", k)] ++ [("value", consumed (String b rest) s3)]))
            = Some [("key", k); ("value", value)]).
  { destruct (plus_class re_dot (String b rest) _) as [r |] eqn:E.
    - apply plus_class_longest in E as (run & rest' & _ & _ & _ & -> & _). eauto.
    - by apply plus_class_accepts in E. }
  destruct Hvalue as [value Hvalue]. exists value.
  assert (Hone : re_match optionsParamsRegex (k +:+ String eq_sign (String b rest)) []
                   (λ _ caps, Some caps) = Some [("key", k); ("value", value)]).
  { cbn [re_match optionsParamsRegex].
    apply plus_class_greedy; [done | done | done |].
    replace (ascii_eqb eq_sign eq_sign) with true by done.
    by rewrite consumed_app. }
  destruct (k +:+ String eq_sign (String b rest)); cbn [String_match]; by rewrite Hone.
Qed.

Lemma obj_set_keeps_key {A : Type} (k k' : string) (v : A) (o : obj A) :
  is_Some (assoc k o) → is_Some (assoc k (obj_set k' v o)).
Proof.
  intros Hk. destruct (decide (k = k')) as [<- | Hne].
  - destruct (decide (k = "__proto__")) as [-> | Hproto].
    + unfold obj_set. by rewrite decide_True.
    + by rewrite assoc_obj_set_eq.
  - by rewrite assoc_obj_set_ne.
Qed.

Lemma readParams_pairs_keeps_key (acc result : obj cli_param) (pairs : list string)
    (k : string) :
  is_Some (assoc k acc) → readParams_pairs acc pairs = Ok result →
  is_Some (assoc k result).
Proof.
  revert acc. induction pairs as [| s pairs IH]; intros acc Hk; simpl.
  - by intros [= <-].
  - unfold readParams_pair at 1.
    destruct (String_match optionsParamsRegex s) as [groups |]; [| done].
    destruct (assoc "key" groups) as [key |], (assoc "value" groups) as [value |];
      try done.
    apply IH. by apply obj_set_keeps_key.
Qed.

Lemma readParams_pairs_sets_key (acc result : obj cli_param) (pairs : list string)
    (k rest : string) (b : ascii) :
  k ≠ EmptyString → str_forall not_eq_sign k = true → k ≠ "__proto__" →
  re_dot b = true →
  k +:+ String eq_sign (String b rest) ∈ pairs →
  readParams_pairs acc pairs = Ok result →
  is_Some (assoc k result).
Proof.
  intros Hk Hkeq Hproto Hb Hin. revert acc.
  induction pairs as [| s pairs IH]; intros acc; [by apply elem_of_nil in Hin |].
  simpl. apply elem_of_cons in Hin as [<- | Hin].
  - unfold readParams_pair.
    destruct (String_match_key k rest b Hk Hkeq Hb) as [value ->]. simpl.
    apply readParams_pairs_keeps_key. by rewrite assoc_obj_set_eq.
  - destruct (readParams_pair acc s); [by apply IH | done].
Qed.

(** X4: the value given to the suppression key does not matter.  When the
    plugin is constructed and one of the comma-separated pieces of its raw
    parameters is [secret-baker-cleanup=] followed by any text that does not
    start with a line terminator ([true], [false], [0], a blank), no cleanup
    hook is registered. *)
Theorem constructor_suppressed_by_any_value (opts : options) (st st' : state)
    (b : ascii) (rest : string) :
  constructor opts st = Ok st' →
  re_dot b = true →
  suppression_key +:+ String eq_sign (String b rest)
    ∈ concat (map (str_split ",") (default [] (param opts))) →
  hooks st' = pkgHooks.
Proof.
  unfold constructor, readParams. rewrite readParams_flatten.
  destruct (readParams_pairs [] _) as [params |] eqn:E; [| done].
  simpl. intros [= <-] Hb Hin. simpl.
  assert (Hkey : is_Some (assoc suppression_key params)).
  { by eapply (readParams_pairs_sets_key [] params _ suppression_key rest b). }
  unfold shouldCleanup. by destruct Hkey as [x ->].
Qed.

Lemma constructor_suppressed_by_any_value_witness :
  ∃ st', constructor (Options (Some ["stage=dev,secret-baker-cleanup=false"]))
           empty_state = Ok st'
    ∧ hooks st' = pkgHooks.
Proof.
  eexists. split; [reflexivity |].
  apply (constructor_suppressed_by_any_value
           (Options (Some ["stage=dev,secret-baker-cleanup=false"])) empty_state _
           "f"%char "alse");
    [reflexivity | reflexivity |].
  apply (bool_decide_unpack _). vm_compute. exact I.
Defined.

(** ** Normalization without a declaration, and in a plain process *)

Lemma getProp_truthy (v : value) (k : string) :
  truthy v = true → ∃ x, getProp v k = Ok x.
Proof. destruct v; simpl; try done; eauto. Qed.

(** No [secretBaker] block: both reads of lines 60 and 61 end at a falsy
    value, without touching the identifier [custom]. *)
Lemma read_secretBaker_unconfigured (h : host) (field : string) :
  truthy (service_custom h) = false
  ∨ (∃ sb, getProp (service_custom h) "secretBaker" = Ok sb ∧ truthy sb = false) →
  ∃ x, read_secretBaker h field = Ok x ∧ truthy x = false.
Proof.
  unfold read_secretBaker. intros [Hsc | (sb & Hsb & Hfalsy)].
  - rewrite Hsc. eauto.
  - destruct (truthy (service_custom h)) eqn:Hsc; [| eauto].
    rewrite Hsb. simpl. rewrite Hfalsy. eauto.
Qed.

Lemma getSecretsConfig_unconfigured (h : host) (st : state) :
  truthy (service_custom h) = false
  ∨ (∃ sb, getProp (service_custom h) "secretBaker" = Ok sb ∧ truthy sb = false) →
  getSecretsConfig h st = (Ok [], st).
Proof.
  intros Hcfg.
  destruct (read_secretBaker_unconfigured h "secrets" Hcfg) as (d & Hd & Hdf).
  destruct (read_secretBaker_unconfigured h "filePath" Hcfg) as (f & Hf & Hff).
  rewrite (getSecretsConfig_shapes h st d f Hd Hf).
  unfold js_or. rewrite Hdf, Hff. by rewrite set_secretsFile_id.
Qed.

(** X6: with no [custom] block, or no [secretBaker] block in it, the list
    of secrets is empty and the state is untouched, also in a plain process,
    and packaging sends no request.  When a file can be written at the
    output path, packaging writes the empty object there and appends the
    path to the include list; when not, packaging fails with the error of
    the write, and no file and no path is added. *)
Theorem packageSecrets_unconfigured (h : host) (st : state) (p : string) :
  truthy (service_custom h) = false
  ∨ (∃ sb, getProp (service_custom h) "secretBaker" = Ok sb ∧ truthy sb = false) →
  secretsFile st = VStr p →
  getSecretsConfig h st = (Ok [], st)
  ∧ requests (packageSecrets h st).2 = requests st
  ∧ match write_error h (files st) p with
    | None =>
        (packageSecrets h st).1 = Ok tt
        ∧ files (packageSecrets h st).2 = <[p := File "{}"]> (files st)
        ∧ package_include (packageSecrets h st).2
          = Some (default [] (package_include st) ++ [VStr p])
    | Some e =>
        (packageSecrets h st).1 = Err e
        ∧ files (packageSecrets h st).2 = files st
        ∧ package_include (packageSecrets h st).2
          = Some (default [] (package_include st))
    end.
Proof.
  intros Hcfg Hp.
  pose proof (getSecretsConfig_unconfigured h st Hcfg) as Hempty.
  split; [exact Hempty |].
  destruct (write_error h (files st) p) as [e |] eqn:Hw.
  - destruct (packageSecrets_all_found_refused h st st [] p e Hempty (Forall_nil_2 _) Hp Hw)
      as (Hrun & Hreq & Hfiles & Hinc).
    simpl in Hreq. rewrite app_nil_r in Hreq. done.
  - destruct (packageSecrets_all_found h st st [] p Hempty (Forall_nil_2 _) Hp Hw)
      as (st' & Hrun & Hfiles & Hinc & Hreq & _).
    rewrite Hrun. cbn [fst snd]. simpl in Hreq. rewrite app_nil_r in Hreq. done.
Qed.

Lemma packageSecrets_unconfigured_witness :
  getSecretsConfig unconfigured_host constructed_state = (Ok [], constructed_state)
  ∧ (packageSecrets unconfigured_host constructed_state).1 = Ok tt
  ∧ files (packageSecrets unconfigured_host constructed_state).2
    = {[ defaultSecretsFile := File "{}" ]}
  ∧ requests (packageSecrets unconfigured_host constructed_state).2 = []
  ∧ package_include (packageSecrets unconfigured_host constructed_state).2
    = Some [VStr defaultSecretsFile].
Proof.
  destruct (packageSecrets_unconfigured unconfigured_host constructed_state
              defaultSecretsFile (or_introl eq_refl) eq_refl)
    as (Hcfg & Hreq & Hrun & Hfiles & Hinc).
  split; [exact Hcfg |]. split; [exact Hrun |]. split; [exact Hfiles |].
  split; [exact Hreq | exact Hinc].
Defined.

(** X7: in a process without a global [custom], normalization either
    returns the empty list or throws on the identifier [custom], in both
    cases leaving the state as it was; packaging sends no request to the
    parameter store. *)
Theorem plain_process_sends_no_request (h : host) (st : state) :
  global_custom h = None →
  (getSecretsConfig h st = (Ok [], st)
   ∨ getSecretsConfig h st = (Err (ReferenceError "custom"), st))
  ∧ requests (packageSecrets h st).2 = requests st.
Proof.
  intros Hglobal.
  assert (Hcfg : ∀ st0, getSecretsConfig h st0 = (Ok [], st0)
                        ∨ getSecretsConfig h st0 = (Err (ReferenceError "custom"), st0)).
  { intros st0. destruct (truthy (service_custom h)) eqn:Hsc.
    - destruct (getProp_truthy _ "secretBaker" Hsc) as [sb Hsb].
      destruct (truthy sb) eqn:Hfalsy.
      + right. by apply (getSecretsConfig_unbound_custom h st0 sb).
      + left. apply getSecretsConfig_unconfigured. right. eauto.
    - left. apply getSecretsConfig_unconfigured. by left. }
  split; [apply Hcfg |].
  rewrite packageSecrets_run. cbn zeta.
  set (sta := set_package_include _ _).
  assert (Hw : requests (writeSecretToFile h sta).2 = requests st).
  { unfold writeSecretToFile.
    destruct (Hcfg sta) as [E | E].
    - rewrite (bind_Ok _ _ _ _ _ E). unfold bind, get. cbn [resolve_secrets ret].
      by rewrite (fs_writeFile_frame requests h _ _ (λ _ _, eq_refl) (λ _ _, eq_refl) sta).
    - by rewrite (bind_Err _ _ _ _ _ E). }
  by destruct (writeSecretToFile h sta) as [[[] | e] st2].
Qed.

Lemma plain_process_sends_no_request_witness :
  let h := plain_host [("secrets", VArr [VStr "DB_PASSWORD"])] in
  global_custom h = None
  ∧ getSecretsConfig h constructed_state
    = (Err (ReferenceError "custom"), constructed_state)
  ∧ requests (packageSecrets h constructed_state).2 = [].
Proof.
  intros h. split; [reflexivity |]. split; [reflexivity |].
  exact (proj2 (plain_process_sends_no_request h constructed_state eq_refl)).
Defined.

(** X8: normalization is idempotent: called again on the state it left, it
    returns the same result and leaves that state as it is, so the output
    path no longer moves. *)
Theorem getSecretsConfig_idempotent (h : host) (st : state) :
  getSecretsConfig h (getSecretsConfig h st).2
  = ((getSecretsConfig h st).1, (getSecretsConfig h st).2).
Proof.
  destruct (read_secretBaker h "secrets") as [d | e] eqn:Hd.
  2:{ assert (E : ∀ st0, getSecretsConfig h st0 = (Err e, st0))
        by (intros st0; unfold getSecretsConfig, bind, liftR; by rewrite Hd).
      by rewrite !E. }
  destruct (read_secretBaker h "filePath") as [f | e] eqn:Hf.
  2:{ assert (E : ∀ st0, getSecretsConfig h st0 = (Err e, st0))
        by (intros st0; unfold getSecretsConfig, bind, liftR; by rewrite Hd, Hf).
      by rewrite !E. }
  rewrite !(getSecretsConfig_shapes h _ d f Hd Hf). cbn [fst snd]. f_equal.
  by destruct (truthy f).
Qed.


(** ** Materialization: failures, duplicates, order *)

Lemma writeSecretToFile_frame {X : Type} (proj : state → X) (h : host) :
  (∀ x st, proj (set_secretsFile x st) = proj st) →
  (∀ x st, proj (set_requests x st) = proj st) →
  (∀ x st, proj (set_files x st) = proj st) →
  (∀ x st, proj (set_descriptors x st) = proj st) →
  preserves proj (writeSecretToFile h).
Proof.
  intros Hpath Hreq Hfiles Hfd. unfold writeSecretToFile.
  apply preserves_bind; [by apply getSecretsConfig_frame | intros refs].
  apply preserves_bind; [by apply resolve_secrets_frame | intros secrets].
  apply preserves_bind; [apply preserves_get | intros st0].
  by apply fs_writeFile_frame.
Qed.




(** X10: when packaging fails, for whatever reason, the files are as they
    were and the output path is not on the include list; the include list
    has still been created if it was missing. *)
Theorem packageSecrets_failure (h : host) (st : state) (e : error) :
  (packageSecrets h st).1 = Err e →
  files (packageSecrets h st).2 = files st
  ∧ package_include (packageSecrets h st).2 = Some (default [] (package_include st)).
Proof.
  rewrite packageSecrets_run. cbn zeta.
  set (sta := set_package_include _ _).
  pose proof (writeSecretToFile_failure_writes_nothing h sta) as Hfiles.
  pose proof (writeSecretToFile_frame package_include h
                (λ _ _, eq_refl) (λ _ _, eq_refl) (λ _ _, eq_refl) (λ _ _, eq_refl) sta)
    as Hinc.
  destruct (writeSecretToFile h sta) as [[[] | e'] st2]; cbn [fst snd] in *; [done |].
  intros _. split; [by apply (Hfiles e') | exact Hinc].
Qed.

Lemma packageSecrets_failure_witness :
  let h := plain_host [("secrets", VArr [VStr "DB_PASSWORD"])] in
  (packageSecrets h constructed_state).1 = Err (ReferenceError "custom")
  ∧ files (packageSecrets h constructed_state).2 = ∅
  ∧ package_include (packageSecrets h constructed_state).2 = Some [].
Proof.
  intros h. split; [reflexivity |].
  exact (packageSecrets_failure h constructed_state (ReferenceError "custom") eq_refl).
Defined.





Lemma obj_set_length {A : Type} (k : string) (v : A) (o : obj A) :
  length (obj_set k v o) ≤ S (length o).
Proof.
  rewrite <- !(length_fmap fst).
  destruct (obj_set_keys k v o) as [-> | (_ & _ & ->)]; [lia |].
  rewrite length_app. simpl. lia.
Qed.











(** ** Packaging and cleanup together *)

(** What packaging has done when it succeeds: the text went to the file at
    the output path, or, when the output path is the number of a descriptor
    that is open for writing, to that descriptor. *)
Lemma packageSecrets_success (h : host) (st st' : state) :
  packageSecrets h st = (Ok tt, st') →
  (∃ p data, secretsFile st' = VStr p
     ∧ files st' = <[p := File data]> (files st))
  ∨ (∃ n, secretsFile st' = VNum n
       ∧ is_Some (descriptors st !! n)
       ∧ files st' = files st).
Proof.
  rewrite packageSecrets_run. cbn zeta.
  set (sta := set_package_include _ _).
  destruct (writeSecretToFile h sta) as [[[] | e] st2] eqn:Hw; [| done].
  intros [= <-]. cbn [secretsFile files set_package_include].
  revert Hw. unfold writeSecretToFile, bind.
  pose proof (getSecretsConfig_frame files h (λ _ _, eq_refl) sta) as Hcfg.
  pose proof (getSecretsConfig_frame descriptors h (λ _ _, eq_refl) sta) as Hcfgd.
  destruct (getSecretsConfig h sta) as [[refs | e1] st1]; simpl in Hcfg, Hcfgd; [| done].
  pose proof (resolve_secrets_frame files h refs [] (λ _ _, eq_refl) st1) as Hres.
  pose proof (resolve_secrets_frame descriptors h refs [] (λ _ _, eq_refl) st1) as Hresd.
  destruct (resolve_secrets h refs [] st1) as [[secrets | e2] st3];
    simpl in Hres, Hresd; [| done].
  unfold get, fs_writeFile.
  destruct (secretsFile st3) as [| | | n | p | |] eqn:Hp; try done.
  - destruct ((0 <=? n)%Z && (n <? 2 ^ 31)%Z); [| done].
    destruct (descriptors st3 !! n) as [written |] eqn:E; [| done].
    intros [= <-]. right. exists n.
    split; [exact Hp |]. split; [| simpl; congruence].
    exists written. rewrite <- E. f_equal. simpl in *. congruence.
  - destruct (write_error h (files st3) p); [done |].
    intros [= <-]. left. exists p, (JSON_stringify secrets).
    split; [exact Hp | simpl; congruence].
Qed.

(** Cleanup, step by step. *)
Lemma cleanupPackageSecrets_run (st : state) :
  let logged :=
    set_cli_log (cli_log st ++ ["Cleaning up " +:+ js_toString (secretsFile st)]) st in
  cleanupPackageSecrets st
  = if fs_existsSync (secretsFile st) st then fs_unlinkSync (secretsFile st) logged
    else (Ok tt, logged).
Proof.
  cbn zeta. unfold cleanupPackageSecrets, bind, get, cli_log_append, modify.
  unfold fs_existsSync. cbn [secretsFile files set_cli_log].
  destruct (secretsFile st); try reflexivity. by case_bool_decide.
Qed.

(** X13: after a successful packaging the output path is a string or the
    number of a descriptor that was open for writing, and cleanup succeeds.
    For a string the files are then those from before packaging without the
    output path: packaging followed by cleanup leaves no file behind, and
    restores the files exactly when nothing was at the output path before.
    For a descriptor packaging has created no file and cleanup removes
    none. *)
Theorem package_then_cleanup (h : host) (st : state) :
  (packageSecrets h st).1 = Ok tt →
  (cleanupPackageSecrets (packageSecrets h st).2).1 = Ok tt
  ∧ match secretsFile (packageSecrets h st).2 with
    | VStr p =>
        files (cleanupPackageSecrets (packageSecrets h st).2).2 = delete p (files st)
        ∧ (files st !! p = None →
           files (cleanupPackageSecrets (packageSecrets h st).2).2 = files st)
    | VNum n =>
        is_Some (descriptors st !! n)
        ∧ files (packageSecrets h st).2 = files st
        ∧ files (cleanupPackageSecrets (packageSecrets h st).2).2 = files st
    | _ => False
    end.
Proof.
  destruct (packageSecrets h st) as [r st'] eqn:Hrun. simpl. intros ->.
  destruct (packageSecrets_success h st st' Hrun)
    as [(p & data & Hp & Hfiles) | (n & Hn & Hopen & Hfiles)].
  - rewrite cleanupPackageSecrets_run. unfold fs_existsSync, fs_unlinkSync.
    rewrite Hp, Hfiles, lookup_insert_eq.
    rewrite bool_decide_eq_true_2 by eauto.
    cbn [files set_cli_log fst snd]. rewrite Hfiles, lookup_insert_eq.
    cbn [files set_files fst snd]. rewrite delete_insert_eq.
    split; [done |]. split; [done |]. intros Hnone. by apply delete_id.
  - rewrite cleanupPackageSecrets_run. unfold fs_existsSync.
    rewrite Hn. cbn [files set_cli_log fst snd]. by rewrite Hfiles.
Qed.

Lemma package_then_cleanup_witness :
  ((packageSecrets unconfigured_host constructed_state).1 = Ok tt
   ∧ secretsFile (packageSecrets unconfigured_host constructed_state).2
     = VStr defaultSecretsFile
   ∧ (cleanupPackageSecrets (packageSecrets unconfigured_host constructed_state).2).1
     = Ok tt
   ∧ files (cleanupPackageSecrets
              (packageSecrets unconfigured_host constructed_state).2).2
     = files constructed_state)
  ∧ (let h := host_with_global [("filePath", VNum 1)] in
     (packageSecrets h constructed_state).1 = Ok tt
     ∧ secretsFile (packageSecrets h constructed_state).2 = VNum 1
     ∧ descriptors (packageSecrets h constructed_state).2 !! 1%Z = Some "{}"
     ∧ (cleanupPackageSecrets (packageSecrets h constructed_state).2).1 = Ok tt
     ∧ files (cleanupPackageSecrets (packageSecrets h constructed_state).2).2
       = files constructed_state).
Proof.
  split.
  - split; [reflexivity |]. split; [reflexivity |].
    destruct (package_then_cleanup unconfigured_host constructed_state eq_refl)
      as (Hok & Hfiles).
    split; [exact Hok |].
    change (secretsFile (packageSecrets unconfigured_host constructed_state).2)
      with (VStr defaultSecretsFile) in Hfiles.
    apply (proj2 Hfiles). apply lookup_empty.
  - intros h. split; [reflexivity |]. split; [reflexivity |]. split; [reflexivity |].
    destruct (package_then_cleanup h constructed_state eq_refl) as (Hok & Hfiles).
    split; [exact Hok |].
    change (secretsFile (packageSecrets h constructed_state).2) with (VNum 1) in Hfiles.
    exact (proj2 (proj2 Hfiles)).
Defined.

(** After a cleanup that succeeded nothing is left at the output path. *)
Lemma cleanupPackageSecrets_gone (st : state) :
  (cleanupPackageSecrets st).1 = Ok tt →
  fs_existsSync (secretsFile (cleanupPackageSecrets st).2)
    (cleanupPackageSecrets st).2 = false.
Proof.
  rewrite cleanupPackageSecrets_run. cbn zeta.
  destruct (fs_existsSync (secretsFile st) st) eqn:Hex.
  - unfold fs_unlinkSync, fs_existsSync in *.
    destruct (secretsFile st) as [| | | | p | |] eqn:Hp; try done.
    cbn [files set_cli_log].
    destruct (files st !! p) as [[c |] |] eqn:E; cbn [fst snd]; try done.
    intros _. cbn [secretsFile files set_files set_cli_log]. rewrite Hp.
    apply bool_decide_eq_false_2. rewrite lookup_delete_eq. by intros [? [=]].
  - intros _. cbn [fst snd]. unfold fs_existsSync in *.
    cbn [secretsFile files set_cli_log]. exact Hex.
Qed.

(** X14: cleanup can run again: after a cleanup that succeeded, a second
    cleanup succeeds too and changes no file. *)
Theorem cleanup_twice (st : state) :
  (cleanupPackageSecrets st).1 = Ok tt →
  (cleanupPackageSecrets (cleanupPackageSecrets st).2).1 = Ok tt
  ∧ files (cleanupPackageSecrets (cleanupPackageSecrets st).2).2
    = files (cleanupPackageSecrets st).2.
Proof.
  intros Hok. pose proof (cleanupPackageSecrets_gone st Hok) as Hgone.
  rewrite (cleanupPackageSecrets_run (cleanupPackageSecrets st).2). cbn zeta.
  by rewrite Hgone.
Qed.

Lemma cleanup_twice_witness :
  let st := State pkgHooks (VStr defaultSecretsFile) None [] []
              {[ defaultSecretsFile := File "{}" ]} std_descriptors in
  (cleanupPackageSecrets st).1 = Ok tt
  ∧ (cleanupPackageSecrets (cleanupPackageSecrets st).2).1 = Ok tt
  ∧ files (cleanupPackageSecrets (cleanupPackageSecrets st).2).2
    = files (cleanupPackageSecrets st).2.
Proof.
  intros st. split; [reflexivity |]. exact (cleanup_twice st eq_refl).
Defined.

(** ** Assignment to a property *)

(** X15: the own properties after an assignment [o[k] = v] of an object
    [v], as [Object.entries] and [JSON.stringify] list them.  On an object
    without repeated keys the list has no repeated key afterwards and at
    most one property more; every own property under another key is kept
    as it was; with a key other than [__proto__] the own property under
    [k] is [v]; with the key [__proto__] the own properties are unchanged
    (the assignment replaces the prototype, through which reads of missing
    keys then go: that is outside this list). *)
Theorem obj_set_assignment {A : Type} (k : string) (v : A) (o : obj A) :
  NoDup o.*1 →
  NoDup (obj_set k v o).*1
  ∧ length o ≤ length (obj_set k v o) ≤ S (length o)
  ∧ (∀ k', k' ≠ k → assoc k' (obj_set k v o) = assoc k' o)
  ∧ (k ≠ "__proto__" → assoc k (obj_set k v o) = Some v)
  ∧ (k = "__proto__" → obj_set k v o = o).
Proof.
  intros Hnd. split; [by apply obj_set_NoDup |]. split.
  { split; [| apply obj_set_length].
    rewrite <- !(length_fmap fst).
    destruct (obj_set_keys k v o) as [-> | (_ & _ & ->)]; [lia |].
    rewrite length_app. lia. }
  split; [intros k' Hk'; by apply assoc_obj_set_ne |].
  split; [apply assoc_obj_set_eq |].
  intros ->. unfold obj_set. by rewrite decide_True.
Qed.

Lemma obj_set_assignment_witness :
  obj_set "10" 3 [("2", 1); ("a", 2)] = [("2", 1); ("10", 3); ("a", 2)]
  ∧ NoDup (obj_set "10" 3 [("2", 1); ("a", 2)]).*1
  ∧ assoc "10" (obj_set "10" 3 [("2", 1); ("a", 2)]) = Some 3.
Proof.
  split; [reflexivity |].
  assert (Hnd : NoDup ([("2", 1); ("a", 2)] : obj nat).*1)
    by (apply (bool_decide_unpack _); vm_compute; exact I).
  destruct (obj_set_assignment "10" 3 [("2", 1); ("a", 2)] Hnd)
    as (Hnd' & _ & _ & Hget & _).
  split; [exact Hnd' | by apply Hget].
Defined.
